(** * Obscura canvas / WebGL anti-fingerprinting: a shallow embedding

    The development follows the JavaScript sources
    [spoofing/core.js], [spoofing/bootstrap.js] and [src/browser-entry.js]:
    the xorshift32 generator and its FNV-1a hash, the session seed, the
    content-keyed pixel noise of [getImageData], the session-keyed canvas
    transform of [toDataURL], the fallback discipline, the patch registry
    and the WebGL wrappers installed by [applyWebGLSpoofing].

    JavaScript numbers that the code only ever uses as integers are
    modelled as [Z] with the 32-bit conversions written out; the two
    places that produce genuine doubles ([random], [randomRange]) use
    the kernel's binary64 floats, which round like ECMAScript numbers. *)

From Stdlib Require Import ZArith List String Ascii Bool Lia DecimalString.
From Stdlib Require Import Floats.PrimFloat Numbers.Cyclic.Int63.Uint63.
Import ListNotations.
Local Open Scope Z_scope.

(* ===================================================================== *)
(** ** ECMAScript integer operators *)
(* ===================================================================== *)

Module JS.

(** [ToUint32] and [ToInt32] of an integer-valued number. *)
Definition ToUint32 (z : Z) : Z := z mod 2 ^ 32.
Definition ToInt32 (z : Z) : Z := (z + 2 ^ 31) mod 2 ^ 32 - 2 ^ 31.

(** [a ^ b], [a & b]: both operands through [ToInt32]; the result is an
    int32 already. *)
Definition bxor (a b : Z) : Z := Z.lxor (ToInt32 a) (ToInt32 b).
Definition band (a b : Z) : Z := Z.land (ToInt32 a) (ToInt32 b).

(** [a << n], [a >> n], [a >>> n]: the shift count is taken modulo 32. *)
Definition shl (a n : Z) : Z := ToInt32 (Z.shiftl (ToInt32 a) (n mod 32)).
Definition sar (a n : Z) : Z := Z.shiftr (ToInt32 a) (n mod 32).
Definition ushr (a n : Z) : Z := Z.shiftr (ToUint32 a) (n mod 32).

(** [Math.imul(a, b)]. *)
Definition imul (a b : Z) : Z := ToInt32 (ToInt32 a * ToInt32 b).

(** [a % b] on integers: the remainder has the sign of the dividend. *)
Definition rem (a b : Z) : Z := Z.rem a b.

(** [Math.max(0, Math.min(255, v))]. *)
Definition clamp255 (v : Z) : Z := Z.max 0 (Z.min 255 v).

(** Template-literal rendering of an integer and of an array read that
    may be out of range ([undefined]). *)
Definition num_to_string (z : Z) : string := NilZero.string_of_int (Z.to_int z).

Definition elem_to_string (o : option Z) : string :=
  match o with
  | Some z => num_to_string z
  | None => "undefined"
  end.

(** [str.charCodeAt(i)] for the code units of a [string] (0..255). *)
Definition charCode (c : ascii) : Z := Z.of_N (N_of_ascii c).

(** An element of a byte array. *)
Definition is_byte (v : Z) : Prop := 0 <= v <= 255.

(** A uint32 as a double. *)
Definition float_of_uint32 (u : Z) : float := PrimFloat.of_uint63 (Uint63.of_Z u).

End JS.

Import JS.

(* ===================================================================== *)
(** ** The generator ([createPRNG], core.js and bootstrap.js) *)
(* ===================================================================== *)

Module PRNG.

(** A seed argument: [None] stands for an absent, [null] or [NaN] seed,
    [Some z] for an integer-valued number. *)
Definition seed_arg := option Z.

(** [!seed || isNaN(seed)] *)
Definition invalid_seed (seed : seed_arg) : bool :=
  match seed with
  | None => true
  | Some z => z =? 0
  end.

(** [createPRNG(seed)]: the closure's [state] variable after construction.
    [now] is the value [Date.now()] returns if it is consulted. *)
Definition createPRNG (now : Z) (seed : seed_arg) : Z :=
  let seed := if invalid_seed seed then now
              else match seed with Some z => z | None => now end in
  let state := ushr seed 0 in
  if state =? 0 then 1 else state.

(** [xorshift32()]: the value returned and the new [state]. *)
Definition xorshift32 (state : Z) : Z * Z :=
  let state := bxor state (shl state 13) in
  let state := bxor state (ushr state 17) in
  let state := bxor state (shl state 5) in
  (ushr state 0, state).

(** [random()] *)
Definition random (state : Z) : float * Z :=
  let (u, state) := xorshift32 state in
  (PrimFloat.div (float_of_uint32 u) 4294967296%float, state).

(** [randomInt(min, max)] for integer bounds ([Math.ceil] and [Math.floor]
    leave them unchanged).  [u / 2^32] is exact in binary64, and so is its
    product with [max - min + 1] while that factor stays within [2^21] in
    magnitude; the floor of the product is then this integer quotient, and
    the final sum is exact while the bounds stay within [2^53].  Outside
    these bounds the code rounds (or overflows) and this quotient is not
    its result: statements about the value drawn carry the bounds. *)
Definition randomInt (min max : Z) (state : Z) : Z * Z :=
  let (u, state) := xorshift32 state in
  ((u * (max - min + 1)) / 4294967296 + min, state).

(** [randomRange(min, max)] *)
Definition randomRange (min max : float) (state : Z) : float * Z :=
  let (u, state) := xorshift32 state in
  (PrimFloat.add min
     (PrimFloat.mul (PrimFloat.div (float_of_uint32 u) 4294967296%float)
                    (PrimFloat.sub max min)),
   state).

Definition FNV_PRIME : Z := 16777619.
Definition OFFSET_BASIS : Z := 2166136261.

(** The body of [hash]'s loop, iterated over the code units. *)
Fixpoint hash_loop (str : string) (hash : Z) : Z :=
  match str with
  | EmptyString => hash
  | String c rest => hash_loop rest (imul (bxor hash (charCode c)) FNV_PRIME)
  end.

(** [hash(str)]: FNV-1a; it does not read or write [state]. *)
Definition hash (str : string) : Z := ushr (hash_loop str OFFSET_BASIS) 0.

(** The step of [xorshift32] read on the unsigned 32-bit value of the
    state: each shifted term is cut to 32 bits. *)
Definition xorshift32_u (u : Z) : Z :=
  let a := Z.lxor u (ToUint32 (Z.shiftl u 13)) in
  let b := Z.lxor a (ToUint32 (Z.shiftr a 17)) in
  Z.lxor b (ToUint32 (Z.shiftl b 5)).

(** One method call on a generator object, and what it returns. *)
Inductive call : Type :=
| CallRandom
| CallRandomInt (min max : Z)
| CallRandomRange (min max : float)
| CallHash (str : string).

Inductive output : Type :=
| OutFloat (f : float)
| OutInt (z : Z).

Definition step (c : call) (state : Z) : output * Z :=
  match c with
  | CallRandom => let (f, s) := random state in (OutFloat f, s)
  | CallRandomInt min max => let (z, s) := randomInt min max state in (OutInt z, s)
  | CallRandomRange min max => let (f, s) := randomRange min max state in (OutFloat f, s)
  | CallHash str => (OutInt (hash str), state)
  end.

(** Driving a generator through a call sequence: the outputs, in order. *)
Fixpoint drive (calls : list call) (state : Z) : list output :=
  match calls with
  | [] => []
  | c :: rest => let (o, s) := step c state in o :: drive rest s
  end.

(** Linear maps over GF(2) on 32-bit words, given by the images of the
    unit vectors: [lin cols i x] adds up the columns selected by the bits
    of [x] from bit [i] on. *)
Definition linear (f : Z -> Z) : Prop :=
  forall x y, f (Z.lxor x y) = Z.lxor (f x) (f y).

Fixpoint lin (cols : list Z) (i : Z) (x : Z) : Z :=
  match cols with
  | [] => 0
  | c :: cs => Z.lxor (if Z.testbit x i then c else 0) (lin cs (i + 1) x)
  end.

(** Five steps (the draws of one canvas transform) followed by adding the
    argument: the map whose kernel is the set of states that five draws
    would leave in place; and the columns of its inverse. *)
Definition five_steps (u : Z) : Z :=
  xorshift32_u (xorshift32_u (xorshift32_u (xorshift32_u (xorshift32_u u)))).

Definition five_steps_plus_id (u : Z) : Z := Z.lxor (five_steps u) u.

Definition five_steps_plus_id_inverse : list Z :=
  [3878413362; 1807735053; 830021350; 3552595174; 3525513023; 3863113933;
   1842702892; 2919842475; 3716102214; 1746832021; 27017622; 3392406729;
   4294438077; 3462055526; 3987701984; 1609239672; 3353432247; 4062992769;
   555976701; 1755130563; 2256826625; 1486814431; 2183800233; 1673272679;
   2190335631; 2484468370; 2232274312; 1887940308; 643584781; 3249215128;
   3296873891; 2879024875].

End PRNG.

Import PRNG.

(* ===================================================================== *)
(** ** Session seed, configuration and module state (bootstrap.js) *)
(* ===================================================================== *)

Module Canvas.

(** [generateSessionSeed()]: [timestamp] is [Date.now()], [randomBytes] the
    eight bytes of the double [Math.random() * 1000000]. *)
Definition mix (hash byte : Z) : Z := imul (bxor hash byte) 16777619.

Definition generateSessionSeed (timestamp : Z) (randomBytes : list Z) : Z :=
  let hash := 2166136261 in
  let hash :=
    fold_left (fun hash i => mix hash (band (sar timestamp (i * 8)) 255))
              [0; 1; 2; 3; 4; 5; 6; 7] hash in
  let hash := fold_left mix randomBytes hash in
  ushr hash 0.

(** [canvasConfig] and the [options] merged into it by [Object.assign]. *)
Record Config : Type := mkConfig {
  pixelNoiseRange : Z;
  alphaNoiseRange : Z
}.

Record Options : Type := mkOptions {
  opt_pixelNoiseRange : option Z;
  opt_alphaNoiseRange : option Z
}.

Definition default_config : Config := mkConfig 5 3.

Definition assign (c : Config) (o : Options) : Config :=
  mkConfig
    (match opt_pixelNoiseRange o with Some v => v | None => pixelNoiseRange c end)
    (match opt_alphaNoiseRange o with Some v => v | None => alphaNoiseRange c end).

(** The module-level variables [prng] (its closure state), [sessionSeed]
    and [canvasConfig]. *)
Record Session : Type := mkSession {
  prng : Z;
  sessionSeed : Z;
  canvasConfig : Config
}.

(** What the environment answers during [init]: the two readings of
    [Date.now()] (in [generateSessionSeed] and in [createPRNG]) and the
    bytes of the ambient random scalar. *)
Record Env : Type := mkEnv {
  now_seed : Z;
  random_bytes : list Z;
  now_prng : Z
}.

(** [init(seed, options)]: [seed || generateSessionSeed()], then
    [createPRNG(sessionSeed)], then the merge of [options]. *)
Definition init (env : Env) (seed : seed_arg) (options : Options)
                (canvasConfig0 : Config) : Session :=
  let sessionSeed :=
    match seed with
    | Some z => if z =? 0 then generateSessionSeed (now_seed env) (random_bytes env)
                else z
    | None => generateSessionSeed (now_seed env) (random_bytes env)
    end in
  mkSession (createPRNG (now_prng env) (Some sessionSeed))
            sessionSeed
            (assign canvasConfig0 options).

(** The fields of [getStatus()] that come from the session. *)
Definition getStatus_sessionSeed (s : Session) : Z := sessionSeed s.

(* --------------------------------------------------------------------- *)
(** *** Pixel noise ([spoofGetImageData]) *)

(** The content fingerprint string built from the canvas size and the
    bytes at offsets 0, 100 and 1000 of the buffer. *)
Definition contentFingerprint (width height : Z) (data : list Z) : string :=
  (num_to_string width ++ "x" ++ num_to_string height ++ ":"
   ++ elem_to_string (nth_error data 0)
   ++ elem_to_string (nth_error data 100)
   ++ elem_to_string (nth_error data 1000))%string.

(** A store into a [Uint8ClampedArray] element. *)
Definition Uint8ClampedArray_store (v : Z) : Z := clamp255 v.

(** The noise loop, four bytes per iteration.  Each iteration draws three
    colour offsets and, for a fully opaque pixel, one alpha offset.  A
    trailing group of fewer than four bytes (never produced by a real
    [ImageData]) still costs three draws; stores past the end are dropped
    and [undefined === 255] is false. *)
Fixpoint noise_loop (cfg : Config) (data : list Z) (st0 : Z) : list Z * Z :=
  let pr := pixelNoiseRange cfg in
  let ar := alphaNoiseRange cfg in
  let '(rNoise, st) := randomInt (- pr) pr st0 in
  let '(gNoise, st) := randomInt (- pr) pr st in
  let '(bNoise, st) := randomInt (- pr) pr st in
  let put v n := Uint8ClampedArray_store (clamp255 (v + n)) in
  match data with
  | [] => ([], st0)
  | [r] => ([put r rNoise], st)
  | [r; g] => ([put r rNoise; put g gNoise], st)
  | [r; g; b] => ([put r rNoise; put g gNoise; put b bNoise], st)
  | r :: g :: b :: a :: rest =>
      let '(a', st) :=
        if a =? 255
        then let '(aNoise, st) := randomInt 0 ar st in
             (Uint8ClampedArray_store (255 - aNoise), st)
        else (a, st) in
      let '(rest', st) := noise_loop cfg rest st in
      (put r rNoise :: put g gNoise :: put b bNoise :: a' :: rest', st)
  end.

(** [spoofGetImageData] after the original call has produced [data] for a
    canvas of the given size: the content hash, the content generator
    [createPRNG(sessionSeed ^ contentHash)] and the noise loop.  [now] is
    the clock reading available to [createPRNG].  The session generator is
    only asked for [hash], so the session is left as it was. *)
Definition contentSeed (s : Session) (width height : Z) (data : list Z) : Z :=
  bxor (sessionSeed s) (hash (contentFingerprint width height data)).

Definition spoofGetImageData (now : Z) (s : Session) (width height : Z)
                             (data : list Z) : list Z :=
  let contentPRNG := createPRNG now (Some (contentSeed s width height data)) in
  fst (noise_loop (canvasConfig s) data contentPRNG).

(* --------------------------------------------------------------------- *)
(** *** Canvas transform ([applyCanvasTransform], [spoofToDataURL]) *)

(** The calls made on the temporary 2D context. *)
Inductive ctx_op : Type :=
| Translate (x y : float)
| Rotate (angle : float)
| Scale (x y : float).

#[warnings="-inexact-float"]
Definition applyCanvasTransform (state : Z) : list ctx_op * Z :=
  let '(dx, state) := randomRange (-0.002)%float 0.002%float state in
  let scaleX := PrimFloat.add 1%float dx in
  let '(dy, state) := randomRange (-0.002)%float 0.002%float state in
  let scaleY := PrimFloat.add 1%float dy in
  let '(translateX, state) := randomRange (-0.3)%float 0.3%float state in
  let '(translateY, state) := randomRange (-0.3)%float 0.3%float state in
  let '(rotate, state) := randomRange (-0.002)%float 0.002%float state in
  ([Translate translateX translateY; Rotate rotate; Scale scaleX scaleY], state).

Section CanvasExport.

(** The host side of an export: a canvas, the temporary canvas obtained by
    drawing it under a list of context operations, and the native
    serializer with its [type] and [quality] arguments. *)
Variables (CanvasEl Arg : Type).
Variable drawImage : list ctx_op -> CanvasEl -> CanvasEl.
Variable native_toDataURL : CanvasEl -> Arg -> Arg -> string.

(** [spoofToDataURL(originalFn, type, quality)] on [canvasEl]: the
    transform is drawn from the session generator [prng], which advances. *)
Definition spoofToDataURL (s : Session) (canvasEl : CanvasEl) (type quality : Arg)
  : string * Session :=
  let '(ops, state) := applyCanvasTransform (prng s) in
  let tempCanvas := drawImage ops canvasEl in
  (native_toDataURL tempCanvas type quality,
   mkSession state (sessionSeed s) (canvasConfig s)).

End CanvasExport.

End Canvas.

Import Canvas.

(* ===================================================================== *)
(** ** The fallback discipline ([tryOrFallback]) *)
(* ===================================================================== *)

Module Fallback.

(** [SPOOF_MODE] *)
Record SpoofMode : Type := mkMode {
  failSilently : bool;
  logErrors : bool;
  hardBlock : bool
}.

Definition SPOOF_MODE : SpoofMode := mkMode true true false.

(** How a call completes: normally with a value, or by throwing. *)
Inductive completion (V E : Type) : Type :=
| Return (v : V)
| Throw (e : E).

Arguments Return {V E} v.
Arguments Throw {V E} e.

Section TryOrFallback.

(** The host: its mutable world (canvases, console, clock), the values
    that flow through calls and the values that can be thrown. *)
Variables (World Value Error : Type).

(** [console.error(prefix, context, error)] with its time-stamped prefix,
    and [new Error(message)]. *)
Variable console_error : string -> string -> Error -> World -> World.
Variable new_Error : string -> Error.

(** A function value applied with [fn.apply(context, args)]. *)
Definition js_function : Type :=
  Value -> list Value -> World -> completion Value Error * World.

(** [logError(module, error, context)] *)
Definition logError (mode : SpoofMode) (module : string) (error : Error)
                    (context : string) (w : World) : World :=
  if negb (logErrors mode) then w
  else console_error module context error w.

(** [tryOrFallback(nativeFn, spoofFn, context, args, moduleName)] *)
Definition tryOrFallback (mode : SpoofMode) (nativeFn spoofFn : js_function)
    (context : Value) (args : list Value) (moduleName : string) (w : World)
  : completion Value Error * World :=
  match spoofFn context args w with
  | (Return v, w) => (Return v, w)
  | (Throw error, w) =>
      let w := logError mode moduleName error
                 "Spoofing failed, falling back to native" w in
      if hardBlock mode
      then (Throw (new_Error ("[Obscura] Spoofing failed in " ++ moduleName
                              ++ " and hardBlock is enabled")), w)
      else nativeFn context args w
  end.

(** The shape shared by the replacements that [patch] and
    [spoofGetContext] install:
    [function (p1, .., pn) { return tryOrFallback(original,
       function () { return spoof.call(this, original, p1, .., pn); },
       this, [p1, .., pn], moduleName); }].
    The replacement passes on its [arity] declared parameters: a missing
    argument reads as [undefined], arguments beyond them are not
    forwarded. *)
Variable undefined : Value.

Definition declared_parameters (arity : nat) (args : list Value) : list Value :=
  map (fun i => nth i args undefined) (seq 0 arity).

Definition wrapper (mode : SpoofMode) (original : js_function)
    (spoof : js_function -> js_function) (arity : nat) (moduleName : string)
  : js_function :=
  fun this args w =>
    let params := declared_parameters arity args in
    tryOrFallback mode original (fun this' _ => spoof original this' params)
                  this params moduleName w.

End TryOrFallback.

Arguments declared_parameters {Value} undefined arity args.
Arguments wrapper {World Value Error} console_error new_Error undefined mode
  original spoof arity moduleName.
Arguments logError {World Error} console_error mode module error context w.
Arguments tryOrFallback {World Value Error} console_error new_Error mode
  nativeFn spoofFn context args moduleName w.

End Fallback.

(* ===================================================================== *)
(** ** The patch registry ([patch], [unpatch]) *)
(* ===================================================================== *)

Module Registry.

(** The three patched methods, and function references compared by
    identity: a function the host (or an earlier script) provided, or a
    wrapper closure allocated by one run of [patch]. *)
Inductive method : Type := GetImageData | ToDataURL | GetContext.

Inductive fnref : Type :=
| Host (id : nat)
| Wrapper (m : method) (closure : nat).

(** A triple of slots; [None] is [null].  It serves both for
    [originalMethods] and for the three prototype properties
    [CanvasRenderingContext2D.prototype.getImageData],
    [HTMLCanvasElement.prototype.toDataURL] and
    [HTMLCanvasElement.prototype.getContext]. *)
Record slots : Type := mkSlots {
  getImageData : option fnref;
  toDataURL : option fnref;
  getContext : option fnref
}.

Record World : Type := mkWorld {
  prototypes : slots;
  originalMethods : slots;
  isPatched : bool;
  next_closure : nat
}.

(** The module as loaded: nothing captured, nothing patched. *)
Definition loaded (host : slots) : World :=
  mkWorld host (mkSlots None None None) false 0.

(** What can throw inside the two [try] blocks: each of their statements
    reads or writes one of the three prototype properties, and such an
    access throws when the global is missing or when the property is an
    accessor whose getter or setter throws.  A host is described by the
    accesses that throw on it; an access that does not throw reads or
    stores the reference, as on a writable data property. *)
Inductive access : Type :=
| Read (m : method)
| Write (m : method).

Definition faults : Type := access -> bool.

(** A host on which the three properties are ordinary data properties. *)
Definition no_faults : faults := fun _ => false.

Definition slot (m : method) (s : slots) : option fnref :=
  match m with
  | GetImageData => getImageData s
  | ToDataURL => toDataURL s
  | GetContext => getContext s
  end.

Definition set_slot (m : method) (f : option fnref) (s : slots) : slots :=
  match m with
  | GetImageData => mkSlots f (toDataURL s) (getContext s)
  | ToDataURL => mkSlots (getImageData s) f (getContext s)
  | GetContext => mkSlots (getImageData s) (toDataURL s) f
  end.

(** How far a [try] block got: to its end, or to the access that threw,
    with the state the statements before it left. *)
Inductive try_block : Type :=
| Completed (w : World)
| Thrown (error : access) (w : World).

Definition and_then (r : try_block) (k : World -> try_block) : try_block :=
  match r with
  | Completed w => k w
  | Thrown error w => Thrown error w
  end.

(** [originalMethods.m = Proto.prototype.m;] *)
Definition store_original (throws : faults) (m : method) (w : World)
  : try_block :=
  if throws (Read m) then Thrown (Read m) w
  else Completed (mkWorld (prototypes w)
                          (set_slot m (slot m (prototypes w)) (originalMethods w))
                          (isPatched w) (next_closure w)).

(** [Proto.prototype.m = function (..) { .. };]  The function expression
    is evaluated, which allocates a closure, and then stored. *)
Definition replace_method (throws : faults) (m : method) (w : World)
  : try_block :=
  let n := next_closure w in
  if throws (Write m)
  then Thrown (Write m)
              (mkWorld (prototypes w) (originalMethods w) (isPatched w) (S n))
  else Completed (mkWorld (set_slot m (Some (Wrapper m n)) (prototypes w))
                          (originalMethods w) (isPatched w) (S n)).

(** [Proto.prototype.m = originalMethods.m;] *)
Definition restore_method (throws : faults) (m : method) (w : World)
  : try_block :=
  if throws (Write m) then Thrown (Write m) w
  else Completed (mkWorld (set_slot m (slot m (originalMethods w)) (prototypes w))
                          (originalMethods w) (isPatched w) (next_closure w)).

Definition set_isPatched (b : bool) (w : World) : World :=
  mkWorld (prototypes w) (originalMethods w) b (next_closure w).

(** The lines [logError('canvas', error, context)] writes with
    [console.error]: the context and the error, here the access that
    threw. *)
Definition logError (error : access) (context : string)
  : list (string * access) :=
  if negb (Fallback.logErrors Fallback.SPOOF_MODE) then []
  else [(context, error)].

(** [patch()] on a host described by [throws]: what it returns, the state
    it leaves and what it wrote to the console. *)
Definition patch_on (throws : faults) (w : World)
  : bool * World * list (string * access) :=
  if isPatched w then (true, w, [])
  else
    let body :=
      and_then (and_then (and_then (and_then (and_then
        (store_original throws GetImageData w)
        (store_original throws ToDataURL))
        (store_original throws GetContext))
        (replace_method throws GetImageData))
        (replace_method throws ToDataURL))
        (replace_method throws GetContext) in
    match body with
    | Completed w => (true, set_isPatched true w, [])
    | Thrown error w =>
        (false, set_isPatched false w,
         logError error "Failed to patch canvas APIs")
    end.

(** [unpatch()] on a host described by [throws].  Its [catch] branch
    leaves [isPatched] as it was. *)
Definition unpatch_on (throws : faults) (w : World)
  : bool * World * list (string * access) :=
  if negb (isPatched w) then (true, w, [])
  else
    let body :=
      and_then (and_then
        (restore_method throws GetImageData w)
        (restore_method throws ToDataURL))
        (restore_method throws GetContext) in
    match body with
    | Completed w => (true, set_isPatched false w, [])
    | Thrown error w =>
        (false, w, logError error "Failed to unpatch canvas APIs")
    end.

(** [patch()] and [unpatch()] in a browser page, where the three
    properties are ordinary writable data properties and no statement of
    the [try] blocks throws: the value returned and the state left. *)
Definition patch (w : World) : bool * World := fst (patch_on no_faults w).

Definition unpatch (w : World) : bool * World := fst (unpatch_on no_faults w).

(** A history of toggles applied to a world. *)
Inductive toggle : Type := Patch | Unpatch.

Definition apply_toggle (w : World) (t : toggle) : World :=
  match t with
  | Patch => snd (patch w)
  | Unpatch => snd (unpatch w)
  end.

Definition toggles (ts : list toggle) (w : World) : World :=
  fold_left apply_toggle ts w.

(** The same history on a host described by [throws]. *)
Definition apply_toggle_on (throws : faults) (w : World) (t : toggle) : World :=
  match t with
  | Patch => snd (fst (patch_on throws w))
  | Unpatch => snd (fst (unpatch_on throws w))
  end.

Definition toggles_on (throws : faults) (ts : list toggle) (w : World) : World :=
  fold_left (apply_toggle_on throws) ts w.

(** Along any history of toggles from the freshly loaded module, an
    unpatched world shows the host's own references and a patched world
    holds them in [originalMethods]. *)
Definition registry_invariant (host : slots) (w : World) : Prop :=
  if isPatched w then originalMethods w = host else prototypes w = host.

End Registry.

(* ===================================================================== *)
(** ** The WebGL wrappers ([applyWebGLSpoofing], src/browser-entry.js) *)
(* ===================================================================== *)

Module WebGL.

(** The fields of a GPU profile that the wrappers read. *)
Record Profile : Type := mkProfile {
  name : string;
  vendor : string;
  renderer : string;
  unmaskedVendor : string;
  unmaskedRenderer : string;
  gpuVendor : string;
  gpuTier : string;
  supportsWebGL2 : bool
}.

Definition nvidia_rtx_3080 : Profile :=
  mkProfile "nvidia_rtx_3080" "WebKit" "WebKit WebGL" "Google Inc. (NVIDIA)"
    "ANGLE (NVIDIA, NVIDIA GeForce RTX 3080 Direct3D11 vs_5_0 ps_5_0, D3D11)"
    "nvidia" "high" true.

Definition amd_radeon_rx_6800 : Profile :=
  mkProfile "amd_radeon_rx_6800" "WebKit" "WebKit WebGL" "Google Inc. (AMD)"
    "ANGLE (AMD, AMD Radeon RX 6800 XT Direct3D11 vs_5_0 ps_5_0, D3D11)"
    "amd" "high" true.

(** [ProfileManager.profiles] *)
Definition profiles : list Profile := [nvidia_rtx_3080; amd_radeon_rx_6800].

(** The module-level state of one session: whether [config.get('enabled')]
    holds, the state of the session generator [prng], and [activeProfile]. *)
Record Session : Type := mkSession {
  enabled : bool;
  prng : Z;
  activeProfile : Profile
}.

(** Values returned by [getParameter] and [getExtension]. *)
Inductive jsval : Type :=
| VNull
| VString (s : string)
| VNumber (z : Z)
| VObject (id : nat).

(** The constants read off a context object, and the [id] of [gl.canvas]. *)
Record GL : Type := mkGL {
  VENDOR : Z;
  RENDERER : Z;
  RGB : Z;
  canvas_id : string
}.

(** The constants of a WebGL context as the WebGL specification fixes
    them. *)
Definition webgl_context (id : string) : GL := mkGL 0x1F00 0x1F01 0x1907 id.

(** The replacement of [gl.getExtension]. *)
Definition getExtension (originalGetExtension : string -> jsval) (name : string)
  : jsval :=
  if String.eqb name "WEBGL_debug_renderer_info" then VNull
  else originalGetExtension name.

(** The replacement of [gl.getParameter]. *)
Definition getParameter (activeProfile : Profile) (gl : GL)
    (originalGetParameter : Z -> jsval) (pname : Z) : jsval :=
  let UNMASKED_VENDOR_WEBGL := 0x9245 in
  let UNMASKED_RENDERER_WEBGL := 0x9246 in
  if pname =? UNMASKED_VENDOR_WEBGL then VString (unmaskedVendor activeProfile)
  else if pname =? UNMASKED_RENDERER_WEBGL then VString (unmaskedRenderer activeProfile)
  else if pname =? VENDOR gl then VString (vendor activeProfile)
  else if pname =? RENDERER gl then VString (renderer activeProfile)
  else originalGetParameter pname.

(** The string hash shared by the three noise paths:
    [hash = ((hash << 5) - hash) + seed.charCodeAt(i); hash = hash & hash]. *)
Fixpoint string_hash (seed : string) (hash : Z) : Z :=
  match seed with
  | EmptyString => hash
  | String c rest =>
      let hash := (shl hash 5 - hash) + charCode c in
      let hash := band hash hash in
      string_hash rest hash
  end.

(** [pixelNoise(index)] inside the replacement of [readPixels]. *)
Definition pixelNoise (x y width height index : Z) : Z :=
  let seed := (num_to_string x ++ "," ++ num_to_string y ++ ","
               ++ num_to_string width ++ "," ++ num_to_string height ++ ","
               ++ num_to_string index)%string in
  let hash := string_hash seed 0 in
  rem hash 7 - 3.

(** A store into a [Uint8Array] element. *)
Definition Uint8Array_store (v : Z) : Z := v mod 256.

(** The loops of [readPixels] over a buffer of four components per pixel
    (the first three are rewritten) and of three components per pixel (all
    three are rewritten); [i] is the flat index of the head of the list.
    Stores past the end of the buffer are dropped. *)
Fixpoint readPixels_loop4 (noise : Z -> Z) (i : Z) (pixels : list Z) : list Z :=
  let put v k := Uint8Array_store (clamp255 (v + noise k)) in
  match pixels with
  | [] => []
  | [r] => [put r i]
  | [r; g] => [put r i; put g (i + 1)]
  | [r; g; b] => [put r i; put g (i + 1); put b (i + 2)]
  | r :: g :: b :: a :: rest =>
      put r i :: put g (i + 1) :: put b (i + 2) :: a
        :: readPixels_loop4 noise (i + 4) rest
  end.

Fixpoint readPixels_loop3 (noise : Z -> Z) (i : Z) (pixels : list Z) : list Z :=
  let put v k := Uint8Array_store (clamp255 (v + noise k)) in
  match pixels with
  | [] => []
  | [r] => [put r i]
  | [r; g] => [put r i; put g (i + 1)]
  | r :: g :: b :: rest =>
      put r i :: put g (i + 1) :: put b (i + 2)
        :: readPixels_loop3 noise (i + 3) rest
  end.

(** The replacement of [gl.readPixels], applied to the buffer [pixels] as
    the original call filled it: the buffer as the caller finds it. *)
Definition readPixels (gl : GL) (x y width height format : Z) (pixels : list Z)
  : list Z :=
  let components := if format =? RGB gl then 3 else 4 in
  if components =? 3
  then readPixels_loop3 (pixelNoise x y width height) 0 pixels
  else readPixels_loop4 (pixelNoise x y width height) 0 pixels.

(** The loop shared by the replacements of [toDataURL] and [toBlob] over
    the [ImageData] of the temporary canvas; [p] is the pixel index
    [i / 4] of the head of the list and [width] is positive (an
    [ImageData] has no zero side). *)
Fixpoint export_loop (width : Z) (id : string) (p : Z) (pixels : list Z) : list Z :=
  let x := rem p width in
  let y := p / width in
  let seed := (num_to_string x ++ "," ++ num_to_string y ++ "," ++ id)%string in
  let hash := string_hash seed 0 in
  let put v n := Canvas.Uint8ClampedArray_store (clamp255 (v + n)) in
  let r' r := put r (rem hash 7 - 3) in
  let g' g := put g (rem (sar hash 3) 7 - 3) in
  let b' b := put b (rem (sar hash 6) 7 - 3) in
  match pixels with
  | [] => []
  | [r] => [r' r]
  | [r; g] => [r' r; g' g]
  | [r; g; b] => [r' r; g' g; b' b]
  | r :: g :: b :: a :: rest =>
      r' r :: g' g :: b' b :: a :: export_loop width id (p + 1) rest
  end.

(** The host side of the canvas exports: the size of a canvas, the bytes
    [getImageData] returns once [drawImage] has copied it to a temporary
    2D canvas, the temporary canvas of a given size after [putImageData]
    has written bytes back to it, the serializers captured from the WebGL
    canvas when the wrappers were installed, and the [toDataURL] method
    found on the temporary canvas.  A blob is the bytes handed to the
    callback. *)
Record Host (CanvasEl Args : Type) : Type := mkHost {
  canvas_width : CanvasEl -> Z;
  canvas_height : CanvasEl -> Z;
  snapshot : CanvasEl -> list Z;
  tempCanvas : Z -> Z -> list Z -> CanvasEl;
  originalToDataURL : CanvasEl -> Args -> string;
  originalToBlob : CanvasEl -> Args -> list Z;
  tempCanvas_toDataURL : CanvasEl -> Args -> string
}.

Arguments canvas_width {CanvasEl Args} h this.
Arguments canvas_height {CanvasEl Args} h this.
Arguments snapshot {CanvasEl Args} h this.
Arguments tempCanvas {CanvasEl Args} h width height pixels.
Arguments originalToDataURL {CanvasEl Args} h this args.
Arguments originalToBlob {CanvasEl Args} h this args.
Arguments tempCanvas_toDataURL {CanvasEl Args} h this args.

(** The replacements a context receives.  The replacement of
    [getParameter] reads the module variable [activeProfile] when it is
    called, so it takes the profile that is active then. *)
Record Installed (CanvasEl Args : Type) : Type := mkInstalled {
  inst_getExtension : (string -> jsval) -> string -> jsval;
  inst_getParameter : Profile -> (Z -> jsval) -> Z -> jsval;
  inst_readPixels : Z -> Z -> Z -> Z -> Z -> list Z -> list Z;
  inst_toDataURL : CanvasEl -> bool -> Args -> string;
  inst_toBlob : CanvasEl -> bool -> Args -> list Z
}.

Arguments mkInstalled {CanvasEl Args} _ _ _ _ _.
Arguments inst_getExtension {CanvasEl Args} i originalGetExtension name.
Arguments inst_getParameter {CanvasEl Args} i activeProfile originalGetParameter
  pname.
Arguments inst_readPixels {CanvasEl Args} i x y width height format pixels.
Arguments inst_toDataURL {CanvasEl Args} i this is_gl_canvas args.
Arguments inst_toBlob {CanvasEl Args} i this is_gl_canvas args.

Section Wrappers.

Context {CanvasEl Args : Type} (host : Host CanvasEl Args).

(** The replacement of [canvas.toDataURL]; [is_gl_canvas] is
    [this === gl.canvas]. *)
Definition toDataURL (gl : GL) (this : CanvasEl) (is_gl_canvas : bool)
    (args : Args) : string :=
  let dataURL := originalToDataURL host this args in
  if is_gl_canvas
  then
    let width := canvas_width host this in
    let height := canvas_height host this in
    let pixels := export_loop width (canvas_id gl) 0 (snapshot host this) in
    tempCanvas_toDataURL host (tempCanvas host width height pixels) args
  else dataURL.

(** The replacement of [canvas.toBlob]. *)
Definition toBlob (gl : GL) (this : CanvasEl) (is_gl_canvas : bool)
    (args : Args) : list Z :=
  if is_gl_canvas
  then
    let width := canvas_width host this in
    let height := canvas_height host this in
    let pixels := export_loop width (canvas_id gl) 0 (snapshot host this) in
    originalToBlob host (tempCanvas host width height pixels) args
  else originalToBlob host this args.

(** [applyWebGLSpoofing(gl, contextType, state)]: nothing is installed on a
    [webgl2] context when the active profile lacks WebGL2.  The context is
    taken to have a canvas with a [toBlob] method, as every WebGL context
    of a page has.  The optional last step, [installDrawSpoofing], belongs
    to a module outside these sources and replaces none of the five
    methods below. *)
Definition applyWebGLSpoofing (s : Session) (gl : GL) (contextType : string)
  : option (Installed CanvasEl Args) :=
  let isWebGL2 := String.eqb contextType "webgl2" in
  if isWebGL2 && negb (supportsWebGL2 (activeProfile s)) then None
  else Some (mkInstalled getExtension
                         (fun activeProfile => getParameter activeProfile gl)
                         (readPixels gl)
                         (toDataURL gl)
                         (toBlob gl)).

(** The replacement of [HTMLCanvasElement.prototype.getContext] set up by
    [installContextHook], for a call whose original returned the context
    [gl]: what it installs on the context before handing it back. *)
Definition is_webgl (contextType : string) : bool :=
  String.eqb contextType "webgl"
  || String.eqb contextType "experimental-webgl"
  || String.eqb contextType "webgl2".

Definition contextHook (s : Session) (gl : GL) (contextType : string)
  : option (Installed CanvasEl Args) :=
  if negb (enabled s) then None
  else if is_webgl contextType then applyWebGLSpoofing s gl contextType
  else None.

End Wrappers.

End WebGL.

(* ===================================================================== *)
(** ** Concrete inputs and hosts used in the examples *)
(* ===================================================================== *)

(** An environment for [init]: the clock at 1700000000000 and the bytes
    of the double 500000 ([Math.random()] having returned 0.5). *)
Definition demo_env : Env :=
  mkEnv 1700000000000 [0; 0; 0; 0; 128; 132; 30; 65] 1700000000000.

(** The bytes of a 4x4 canvas filled with opaque red. *)
Definition red4x4 : list Z :=
  Eval cbv in List.concat (repeat [255; 0; 0; 255] 16).

(** A host whose world is the console log, with a native read-back that
    returns the receiver's bytes and a spoof path that throws. *)
Definition demo_console (module context : string) (e : string)
           (w : list string) : list string :=
  (module ++ ": " ++ context ++ ": " ++ e)%string :: w.

Definition demo_native : Fallback.js_function (list string) (list Z) string :=
  fun context _ w => (Fallback.Return context, w).

Definition demo_failing_spoof : Fallback.js_function (list string) (list Z) string :=
  fun _ _ w => (Fallback.Throw "TypeError"%string, w).

(** A native read-back that honours a fifth argument, as
    [getImageData(sx, sy, sw, sh, settings)] does: given one it returns
    that argument, otherwise the receiver's bytes. *)
Definition demo_native_settings
  : Fallback.js_function (list string) (list Z) string :=
  fun context args w =>
    match nth_error args 4 with
    | Some settings => (Fallback.Return settings, w)
    | None => (Fallback.Return context, w)
    end.

(** A host on which [HTMLCanvasElement.prototype.toDataURL] is an
    accessor whose setter throws. *)
Definition demo_faults : Registry.faults :=
  fun a =>
    match a with
    | Registry.Write Registry.ToDataURL => true
    | _ => false
    end.

(** A WebGL host: a canvas is its bytes (one pixel wide), the serializers
    print the first byte; and two sessions with different generator
    states and profiles. *)
Definition demo_host : WebGL.Host (list Z) unit :=
  WebGL.mkHost (list Z) unit
    (fun _ => 1) (fun this => Z.of_nat (List.length this) / 4)
    (fun this => this) (fun _ _ pixels => pixels)
    (fun this _ => elem_to_string (nth_error this 0))
    (fun this _ => this)
    (fun this _ => elem_to_string (nth_error this 0)).

Definition demo_session1 : WebGL.Session :=
  WebGL.mkSession true 12345 WebGL.nvidia_rtx_3080.

Definition demo_session2 : WebGL.Session :=
  WebGL.mkSession true 67890 WebGL.amd_radeon_rx_6800.

(* ===================================================================== *)
(** ** Further functions of the sources *)
(* ===================================================================== *)

Module Generator.

(** The [state] a generator is left in by a sequence of method calls. *)
Fixpoint advance (calls : list call) (state : Z) : Z :=
  match calls with
  | [] => state
  | c :: rest => advance rest (snd (step c state))
  end.

(** The columns of the inverse of [xorshift32_u] over GF(2). *)
Definition xorshift32_u_inverse : list Z :=
  [4071982377; 3848997458; 3738612901; 3182258506; 2069549716; 4139099432;
   3983231568; 3470144673; 2645322050; 995676804; 1991353608; 3982707216;
   3469095969; 2643224642; 991481988; 1982963976; 3965927952; 3435537441;
   2576107586; 857247876; 1714495752; 3428991504; 2294547488; 294127680;
   588255360; 1176510720; 2353021440; 142607360; 285214720; 570429440;
   1140858880; 2281717760].

End Generator.

(** The offsets the WebGL noise paths can add to a byte. *)
Definition webgl_offset (i o : Z) : Prop := -9 <= o - i <= 3.

(** *** The injection harness (sessionManager/injectSpoofing.js) *)

Module Harness.

(** The loop of [generateSeed]:
    [hash ^= base.charCodeAt(i); hash = Math.imul(hash, 16777619)]. *)
Fixpoint generateSeed_loop (base : string) (hash : Z) : Z :=
  match base with
  | EmptyString => hash
  | String c rest => generateSeed_loop rest (imul (bxor hash (charCode c)) 16777619)
  end.

(** [generateSeed(identifier)], with [now] the reading of [Date.now()]. *)
Definition generateSeed (now : Z) (identifier : string) : Z :=
  let base := (num_to_string now ++ identifier)%string in
  let hash := 2166136261 in
  ushr (generateSeed_loop base hash) 0.

(** What [injectCanvasSpoofing] reports: [config.seed] when the
    configuration has one, a generated seed otherwise.  ([undefined] is
    [None]; any number, 0 included, is kept.) *)
Definition injectCanvasSpoofing_seed (now : Z) (config_seed : option Z) : Z :=
  match config_seed with
  | Some seed => seed
  | None => generateSeed now ""
  end.

End Harness.

(** *** The page after the injected scripts ran (bootstrap.js) *)

Module Page.

(** What the scripts see of [window]: the seed inside
    [window.__obscura_config.canvas] if that object was injected, the flag
    [window.__obscura_initialized], and, once the body of bootstrap.js ran,
    its module variables ([prng], [sessionSeed], [canvasConfig]) next to
    the registry ([originalMethods], [isPatched]) and the prototypes. *)
Record Window : Type := mkWindow {
  obscura_config_seed : option Z;
  obscura_initialized : bool;
  session : option Canvas.Session;
  registry : Registry.World
}.

(** A window no script has touched. *)
Definition fresh (host : Registry.slots) : Window :=
  mkWindow None false None (Registry.loaded host).

(** The first init script of [injectCanvasSpoofing]:
    [window.__obscura_config = { canvas: fullConfig }], where [fullConfig]
    always carries the seed. *)
Definition set_config (seed : Z) (win : Window) : Window :=
  mkWindow (Some seed) (obscura_initialized win) (session win) (registry win).

(** The body of bootstrap.js: the guard against a second run, then the
    module variables at their initial values, [init()] without arguments
    and [patch()]. *)
Definition bootstrap (env : Env) (win : Window) : Window :=
  if obscura_initialized win then win
  else
    let module :=
      Registry.mkWorld (Registry.prototypes (registry win))
                       (Registry.mkSlots None None None) false
                       (Registry.next_closure (registry win)) in
    mkWindow (obscura_config_seed win) true
             (Some (init env None (mkOptions None None) default_config))
             (snd (Registry.patch module)).

(** A page of a context prepared by [injectCanvasSpoofing]: the two init
    scripts run in the order they were added. *)
Definition load (seed : Z) (env : Env) (host : Registry.slots) : Window :=
  bootstrap env (set_config seed (fresh host)).

(** [window.__obscura.getStatus().sessionSeed] *)
Definition status_sessionSeed (win : Window) : option Z :=
  option_map sessionSeed (session win).

End Page.

(** *** Contexts handed out by the patched getContext (bootstrap.js) *)

Module Context2D.

(** A function value found under [getImageData]: what a prototype slot
    held ([None] is [null]), or the replacement [spoofGetContext] puts on
    a context, which keeps the value it found there as
    [originalGetImageData]. *)
Inductive fnval : Type :=
| Ref (f : option Registry.fnref)
| InstanceWrapper (originalGetImageData : fnval).

(** A 2D context: the marker [__obscura_processed] and its own
    [getImageData] property, if it has one. *)
Record Ctx : Type := mkCtx {
  obscura_processed : bool;
  own_getImageData : option fnval
}.

(** A context as the host creates it. *)
Definition host_ctx : Ctx := mkCtx false None.

(** [ctx.getImageData]: the own property, else the prototype's. *)
Definition lookup_getImageData (w : Registry.World) (ctx : Ctx) : fnval :=
  match own_getImageData ctx with
  | Some f => f
  | None => Ref (Registry.getImageData (Registry.prototypes w))
  end.

(** [spoofGetContext(originalFn, contextType, contextAttributes)], given
    what the original call returns for this canvas ([None] is [null]):
    the value returned with the context as it is left, or [Throw] when
    the marker is read off [null]. *)
Definition spoofGetContext (w : Registry.World) (contextType : string)
    (ctx : option Ctx) : Fallback.completion (option Ctx) unit :=
  if negb (String.eqb contextType "2d") then Fallback.Return ctx
  else
    match ctx with
    | None => Fallback.Throw tt
    | Some ctx =>
        if obscura_processed ctx then Fallback.Return (Some ctx)
        else
          let originalGetImageData := lookup_getImageData w ctx in
          Fallback.Return
            (Some (mkCtx true (Some (InstanceWrapper originalGetImageData))))
    end.

(** The replacement of [HTMLCanvasElement.prototype.getContext] with
    hard-block mode off: when [spoofGetContext] throws, the original's
    answer is returned. *)
Definition getContext (w : Registry.World) (contextType : string)
    (ctx : option Ctx) : option Ctx :=
  match spoofGetContext w contextType ctx with
  | Fallback.Return c => c
  | Fallback.Throw _ => ctx
  end.

(** Calling a [getImageData] value on a context whose canvas has the
    given size and whose host read-back returns [native]: the buffer
    returned and the clock readings left ([createPRNG] is handed the next
    one, innermost call first).  A replacement obtains the data from its
    original and runs [spoofGetImageData] over it; the prototype's
    replacement reads its original from [originalMethods] when called.
    [None] when the value called is [null] or a replacement of another
    method, or when [fuel] nested calls or the readings do not suffice. *)
Fixpoint call_getImageData (fuel : nat) (w : Registry.World) (s : Session)
    (width height : Z) (native : list Z) (f : fnval) (nows : list Z)
  : option (list Z * list Z) :=
  match fuel with
  | O => None
  | S fuel =>
      let spoofed original :=
        match call_getImageData fuel w s width height native original nows with
        | Some (data, now :: nows) =>
            Some (spoofGetImageData now s width height data, nows)
        | _ => None
        end in
      match f with
      | Ref None => None
      | Ref (Some (Registry.Host _)) => Some (native, nows)
      | Ref (Some (Registry.Wrapper Registry.GetImageData _)) =>
          spoofed (Ref (Registry.getImageData (Registry.originalMethods w)))
      | Ref (Some (Registry.Wrapper _ _)) => None
      | InstanceWrapper original => spoofed original
      end
  end.

End Context2D.

(** *** The life cycle of the WebGL module (src/browser-entry.js) *)

Module WebGLModule.

(** A reference under [HTMLCanvasElement.prototype.getContext]: a
    function of the host, or the hook allocated by one run of
    [installContextHook]. *)
Inductive ref : Type :=
| HostGetContext (id : nat)
| ContextHook (closure : nat).

(** The module variables [initialized], [config] (its [enabled] option),
    [prng], [activeProfile] and [originalGetContext], with the prototype
    slot and the closure counter. *)
Record Module : Type := mkModule {
  initialized : bool;
  config : option bool;
  prng : option Z;
  activeProfile : option WebGL.Profile;
  originalGetContext : option ref;
  proto_getContext : ref;
  next_hook : nat
}.

Definition unloaded (host : ref) : Module :=
  mkModule false None None None None host 0.

(** What [initialize] resolves to. *)
Inductive init_result : Type :=
| Ready (config : option bool) (prng : option Z)
| InitError.

(** [initialize(userConfig)].  [cfg_enabled] is the [enabled] option of
    [new Config(userConfig)], [state] the generator [new SessionPRNG(seed)]
    and [index] the value of
    [Math.floor(prng.random() * this.profiles.length)]; the two
    constructors belong to modules outside these sources and are taken to
    return.  An index outside the catalogue leaves [activeProfile]
    undefined, and reading its [gpuVendor] for the log line throws, which
    the [catch] turns into the error result. *)
Definition initialize (cfg_enabled : bool) (state : Z) (index : nat)
    (m : Module) : init_result * Module :=
  if initialized m then (Ready (config m) (prng m), m)
  else
    match nth_error WebGL.profiles index with
    | None =>
        (InitError,
         mkModule false (Some cfg_enabled) (Some state) None
                  (originalGetContext m) (proto_getContext m) (next_hook m))
    | Some profile =>
        (Ready (Some cfg_enabled) (Some state),
         mkModule true (Some cfg_enabled) (Some state) (Some profile)
                  (Some (proto_getContext m)) (ContextHook (next_hook m))
                  (S (next_hook m)))
    end.

(** [disable()] *)
Definition disable (m : Module) : bool * Module :=
  if negb (initialized m) then (false, m)
  else
    let proto :=
      match originalGetContext m with
      | Some original => original
      | None => proto_getContext m
      end in
    (true,
     mkModule false (config m) (prng m) (activeProfile m)
              (originalGetContext m) proto (next_hook m)).

(** [getStatus()]: [initialized], [enabled] and the profile summary
    (vendor, tier, WebGL2 support) or [null]. *)
Definition getStatus (m : Module)
  : bool * bool * option (string * string * bool) :=
  (initialized m,
   initialized m && match config m with Some e => e | None => false end,
   option_map (fun p => (WebGL.gpuVendor p, WebGL.gpuTier p, WebGL.supportsWebGL2 p))
              (activeProfile m)).

End WebGLModule.

(* ===================================================================== *)
(** * Properties *)
(* ===================================================================== *)

(** ** Sanity checks against known values *)

Example hash_test : hash "test" = 2949673445.
Proof. reflexivity. Qed.

Example xorshift32_first : fst (xorshift32 (createPRNG 0 (Some 1))) = 270369.
Proof. reflexivity. Qed.

Example fingerprint_red4x4 :
  contentFingerprint 4 4 red4x4 = "4x4:255undefinedundefined"%string.
Proof. reflexivity. Qed.

(** ** Seeding *)

Lemma ushr_0 (z : Z) : ushr z 0 = ToUint32 z.
Proof. unfold ushr. change (0 mod 32) with 0. apply Z.shiftr_0_r. Qed.

Lemma ToUint32_range (z : Z) : 0 <= ToUint32 z < 2 ^ 32.
Proof. unfold ToUint32. apply Z.mod_pos_bound. lia. Qed.

(** A non-zero numeric seed is coerced and, if the coercion is 0,
    remapped to 1; the clock is never consulted. *)
Lemma createPRNG_valid (now z : Z) :
  z <> 0 ->
  createPRNG now (Some z) = if ToUint32 z =? 0 then 1 else ToUint32 z.
Proof.
  intros Hz. unfold createPRNG, invalid_seed.
  destruct (Z.eqb_spec z 0) as [E | _]; [contradiction |].
  now rewrite ushr_0.
Qed.

(** A zero or absent seed is replaced by the clock reading. *)
Lemma createPRNG_invalid (now : Z) (seed : seed_arg) :
  invalid_seed seed = true ->
  createPRNG now seed = if ToUint32 now =? 0 then 1 else ToUint32 now.
Proof.
  intros H. unfold createPRNG. rewrite H. now rewrite ushr_0.
Qed.

Lemma createPRNG_clock_free (now1 now2 z : Z) :
  z <> 0 -> createPRNG now1 (Some z) = createPRNG now2 (Some z).
Proof. intros Hz. now rewrite !createPRNG_valid. Qed.

(** The state after construction is a non-zero uint32. *)
Lemma createPRNG_state (now : Z) (seed : seed_arg) :
  0 < createPRNG now seed < 2 ^ 32.
Proof.
  unfold createPRNG. rewrite ushr_0.
  match goal with |- context [ToUint32 ?s] =>
    pose proof (ToUint32_range s); destruct (Z.eqb_spec (ToUint32 s) 0) end; lia.
Qed.

(** *** The generator never stalls

    The state after a draw, read as a uint32, is [xorshift32_u] of the
    state read as a uint32, and that is the value drawn. *)

Lemma ToUint32_ToInt32 (z : Z) : ToUint32 (ToInt32 z) = ToUint32 z.
Proof.
  unfold ToUint32, ToInt32.
  rewrite Zminus_mod_idemp_l. f_equal. lia.
Qed.

Lemma ToUint32_land (z : Z) : ToUint32 z = Z.land z (Z.ones 32).
Proof. unfold ToUint32. now rewrite Z.land_ones by lia. Qed.

Lemma ToUint32_lxor (a b : Z) :
  ToUint32 (Z.lxor a b) = Z.lxor (ToUint32 a) (ToUint32 b).
Proof.
  rewrite !ToUint32_land. apply Z.bits_inj'. intros n Hn.
  rewrite ?Z.land_spec, ?Z.lxor_spec, ?Z.land_spec.
  now destruct (Z.testbit a n), (Z.testbit b n), (Z.testbit (Z.ones 32) n).
Qed.

Lemma ToUint32_shiftl (a n : Z) :
  0 <= n -> ToUint32 (Z.shiftl (ToUint32 a) n) = ToUint32 (Z.shiftl a n).
Proof.
  intros Hn. unfold ToUint32. rewrite !Z.shiftl_mul_pow2 by lia.
  apply Zmult_mod_idemp_l.
Qed.

Lemma ToUint32_bxor (a b : Z) :
  ToUint32 (bxor a b) = Z.lxor (ToUint32 a) (ToUint32 b).
Proof. unfold bxor. now rewrite ToUint32_lxor, !ToUint32_ToInt32. Qed.

Lemma ToUint32_shl (a n : Z) :
  0 <= n < 32 -> ToUint32 (shl a n) = ToUint32 (Z.shiftl (ToUint32 a) n).
Proof.
  intros Hn. unfold shl. rewrite Z.mod_small by lia.
  rewrite ToUint32_ToInt32.
  rewrite <- (ToUint32_shiftl (ToInt32 a)) by lia.
  now rewrite ToUint32_ToInt32.
Qed.

Lemma ToUint32_small (z : Z) : 0 <= z < 2 ^ 32 -> ToUint32 z = z.
Proof. apply Z.mod_small. Qed.

Lemma ToUint32_xor_shl (s n : Z) :
  0 <= n < 32 ->
  ToUint32 (bxor s (shl s n))
  = Z.lxor (ToUint32 s) (ToUint32 (Z.shiftl (ToUint32 s) n)).
Proof. intros Hn. now rewrite ToUint32_bxor, ToUint32_shl. Qed.

Lemma ToUint32_xor_ushr (s : Z) :
  ToUint32 (bxor s (ushr s 17))
  = Z.lxor (ToUint32 s) (ToUint32 (Z.shiftr (ToUint32 s) 17)).
Proof. now rewrite ToUint32_bxor. Qed.

Lemma xorshift32_unsigned (state : Z) :
  fst (xorshift32 state) = xorshift32_u (ToUint32 state)
  /\ ToUint32 (snd (xorshift32 state)) = xorshift32_u (ToUint32 state).
Proof.
  unfold xorshift32. cbn [fst snd]. rewrite ushr_0.
  assert (ToUint32
            (bxor (bxor (bxor state (shl state 13))
                        (ushr (bxor state (shl state 13)) 17))
                  (shl (bxor (bxor state (shl state 13))
                             (ushr (bxor state (shl state 13)) 17)) 5))
          = xorshift32_u (ToUint32 state)) as E.
  { rewrite ToUint32_xor_shl, ToUint32_xor_ushr, ToUint32_xor_shl by lia.
    reflexivity. }
  now split.
Qed.

(** [xorshift32_u] is linear over GF(2). *)

Lemma lxor_swap (a b c d : Z) :
  Z.lxor (Z.lxor a b) (Z.lxor c d) = Z.lxor (Z.lxor a c) (Z.lxor b d).
Proof.
  rewrite !Z.lxor_assoc. f_equal.
  rewrite <- !Z.lxor_assoc. f_equal. apply Z.lxor_comm.
Qed.

Lemma linear_0 (f : Z -> Z) : linear f -> f 0 = 0.
Proof.
  intros L. specialize (L 0 0).
  rewrite Z.lxor_0_l, Z.lxor_nilpotent in L. exact L.
Qed.

Lemma linear_plus_id (h : Z -> Z) :
  linear h -> linear (fun x => Z.lxor x (h x)).
Proof. intros L x y. rewrite L. apply lxor_swap. Qed.

Lemma linear_compose (f g : Z -> Z) :
  linear f -> linear g -> linear (fun x => f (g x)).
Proof. intros Lf Lg x y. now rewrite Lg, Lf. Qed.

Lemma linear_shiftl_cut (n : Z) : linear (fun x => ToUint32 (Z.shiftl x n)).
Proof. intros x y. now rewrite Z.shiftl_lxor, ToUint32_lxor. Qed.

Lemma linear_shiftr_cut (n : Z) : linear (fun x => ToUint32 (Z.shiftr x n)).
Proof. intros x y. now rewrite Z.shiftr_lxor, ToUint32_lxor. Qed.

Lemma xorshift32_u_linear : linear xorshift32_u.
Proof.
  pose proof (linear_plus_id _ (linear_shiftl_cut 13)) as L1.
  pose proof (linear_plus_id _ (linear_shiftr_cut 17)) as L2.
  pose proof (linear_plus_id _ (linear_shiftl_cut 5)) as L3.
  exact (linear_compose _ _ L3 (linear_compose _ _ L2 L1)).
Qed.

Lemma five_steps_plus_id_linear : linear five_steps_plus_id.
Proof.
  unfold five_steps_plus_id.
  pose proof xorshift32_u_linear as L.
  intros x y. unfold five_steps. rewrite !L. apply lxor_swap.
Qed.

Lemma lin_linear (cols : list Z) : forall i, linear (lin cols i).
Proof.
  induction cols as [| c cs IH]; intros i x y; cbn [lin].
  - reflexivity.
  - rewrite IH, Z.lxor_spec, <- lxor_swap. f_equal.
    destruct (Z.testbit x i), (Z.testbit y i); cbn [xorb];
      now rewrite ?Z.lxor_nilpotent, ?Z.lxor_0_l, ?Z.lxor_0_r.
Qed.

(** A word below [2^(n+1)] is its low [n] bits plus its bit [n]. *)
Lemma split_top_bit (n x : Z) :
  0 <= n -> 0 <= x < 2 ^ (n + 1) ->
  x = Z.lxor (x mod 2 ^ n) (if Z.testbit x n then 2 ^ n else 0).
Proof.
  intros Hn Hx. apply Z.bits_inj'. intros k Hk.
  rewrite Z.lxor_spec.
  destruct (Z.lt_trichotomy k n) as [Hlt | [-> | Hgt]].
  - rewrite Z.mod_pow2_bits_low by lia.
    destruct (Z.testbit x n);
      now rewrite ?Z.pow2_bits_false, ?Z.bits_0, xorb_false_r by lia.
  - rewrite Z.mod_pow2_bits_high by lia.
    destruct (Z.testbit x n);
      now rewrite ?Z.pow2_bits_true, ?Z.bits_0 by lia.
  - rewrite Z.mod_pow2_bits_high by lia.
    assert (Z.testbit x k = false) as ->.
    { rewrite <- (Z.mod_small x (2 ^ (n + 1))) by lia.
      apply Z.mod_pow2_bits_high. lia. }
    destruct (Z.testbit x n);
      now rewrite ?Z.pow2_bits_false, ?Z.bits_0 by lia.
Qed.

(** Two linear maps that agree on the first [n] unit vectors agree below
    [2^n]. *)
Lemma linear_ext (f g : Z -> Z) :
  linear f -> linear g ->
  forall n : nat,
    (forall k : nat, (k < n)%nat -> f (2 ^ Z.of_nat k) = g (2 ^ Z.of_nat k)) ->
    forall x, 0 <= x < 2 ^ Z.of_nat n -> f x = g x.
Proof.
  intros Lf Lg. induction n as [| n IH]; intros Hb x Hx.
  - assert (x = 0) as -> by (cbn in Hx; lia).
    now rewrite !linear_0.
  - rewrite Nat2Z.inj_succ, <- Z.add_1_r in Hx.
    rewrite (split_top_bit (Z.of_nat n) x) by lia.
    rewrite Lf, Lg. f_equal.
    + apply IH; [intros k Hk; apply Hb; lia |].
      apply Z.mod_pos_bound. lia.
    + destruct (Z.testbit x (Z.of_nat n)); [apply Hb; lia |].
      now rewrite !linear_0.
Qed.

Lemma five_steps_plus_id_inverse_basis (k : nat) :
  (k < 32)%nat ->
  lin five_steps_plus_id_inverse 0 (five_steps_plus_id (2 ^ Z.of_nat k))
  = 2 ^ Z.of_nat k.
Proof.
  intros Hk.
  do 32 (destruct k as [| k]; [vm_compute; reflexivity |]).
  lia.
Qed.

Lemma five_steps_plus_id_inverse_left (x : Z) :
  0 <= x < 2 ^ 32 ->
  lin five_steps_plus_id_inverse 0 (five_steps_plus_id x) = x.
Proof.
  intros Hx.
  apply (linear_ext (fun x => lin five_steps_plus_id_inverse 0 (five_steps_plus_id x))
                    (fun x => x)) with (n := 32%nat).
  - apply linear_compose; [apply lin_linear | apply five_steps_plus_id_linear].
  - intros a b. reflexivity.
  - apply five_steps_plus_id_inverse_basis.
  - exact Hx.
Qed.

Lemma lin_0 (cols : list Z) : forall i, lin cols i 0 = 0.
Proof.
  induction cols as [| c cs IH]; intros i; cbn [lin]; [reflexivity |].
  now rewrite IH, Z.bits_0.
Qed.

Lemma five_steps_plus_id_kernel (u : Z) :
  five_steps u = u -> five_steps_plus_id u = 0.
Proof.
  intros H. unfold five_steps_plus_id. rewrite H. apply Z.lxor_nilpotent.
Qed.

(** Five draws never bring a valid state back to itself. *)
Lemma five_steps_no_fixpoint (u : Z) : 0 < u < 2 ^ 32 -> five_steps u <> u.
Proof.
  intros Hu Hfix.
  assert (0 <= u < 2 ^ 32) as Hu' by lia.
  pose proof (five_steps_plus_id_inverse_left u Hu') as H.
  rewrite (five_steps_plus_id_kernel u Hfix) in H.
  rewrite lin_0 in H. lia.
Qed.

(** [hash] leaves the generator where it was. *)
Lemma step_hash_pure (str : string) (state : Z) :
  snd (step (CallHash str) state) = state.
Proof. reflexivity. Qed.

(** C1, as stated, fails: a generator built from the seed 0 takes its
    state from the clock, and so does a content generator whose seed
    [S XOR hash(F)] cancels to 0. *)
Lemma determinism_counterexample :
  drive [CallRandomInt 0 999999] (createPRNG 1700000000000 (Some 0))
    <> drive [CallRandomInt 0 999999] (createPRNG 1700000000001 (Some 0))
  /\ (let S := 1122565549 in
      let F := "4x4:255undefinedundefined"%string in
      drive [CallRandomInt 0 999999] (createPRNG 1700000000000 (Some (bxor S (hash F))))
        <> drive [CallRandomInt 0 999999] (createPRNG 1700000000001 (Some (bxor S (hash F))))).
Proof. split; vm_compute; discriminate. Qed.

(** C1 (amended): for every non-zero numeric seed S, two generators
    created by createPRNG(S), whatever the clock shows at either creation,
    return identical outputs along every sequence of
    random/randomInt/randomRange/hash calls; and for every S and
    fingerprint F with S XOR hash(F) non-zero, two content generators
    PRNG(S XOR hash(F)) built independently do the same. *)
Theorem prng_determinism :
  (forall (S now1 now2 : Z) (calls : list call),
      S <> 0 ->
      drive calls (createPRNG now1 (Some S)) = drive calls (createPRNG now2 (Some S)))
  /\ (forall (S now1 now2 : Z) (F : string) (calls : list call),
      bxor S (hash F) <> 0 ->
      drive calls (createPRNG now1 (Some (bxor S (hash F))))
      = drive calls (createPRNG now2 (Some (bxor S (hash F))))).
Proof.
  split; intros; f_equal; now apply createPRNG_clock_free.
Qed.

Lemma prng_determinism_witness :
  drive [CallRandom; CallRandomInt (-5) 5; CallHash "test"; CallRandomInt 0 3]
        (createPRNG 1700000000000 (Some 12345))
  = drive [CallRandom; CallRandomInt (-5) 5; CallHash "test"; CallRandomInt 0 3]
          (createPRNG 1700000000001 (Some 12345))
  /\ drive [CallRandomInt (-5) 5]
           (createPRNG 1700000000000 (Some (bxor 12345 (hash "4x4:255undefinedundefined"))))
     = drive [CallRandomInt (-5) 5]
             (createPRNG 1700000000001 (Some (bxor 12345 (hash "4x4:255undefinedundefined")))).
Proof.
  destruct prng_determinism as [H1 H2]. split.
  - apply H1. lia.
  - apply H2. vm_compute. discriminate.
Defined.

(** C5, as stated, fails: with the clock at 1700000000000 a generator
    seeded with 0 does not behave like one seeded with 1. *)
Lemma zero_seed_counterexample :
  drive [CallRandomInt 0 999999] (createPRNG 1700000000000 (Some 0))
    <> drive [CallRandomInt 0 999999] (createPRNG 1700000000000 (Some 1)).
Proof. vm_compute. discriminate. Qed.

(** C5 (amended): a non-zero seed whose unsigned 32-bit coercion is 0
    behaves identically to the seed 1 on every call sequence, while the
    seed 0 itself is handled as an absent seed: the generator behaves as
    the one created without a seed at the same clock reading. *)
Theorem zero_remap (z now now' : Z) (calls : list call) :
  z <> 0 -> ToUint32 z = 0 ->
  drive calls (createPRNG now (Some z)) = drive calls (createPRNG now' (Some 1))
  /\ drive calls (createPRNG now (Some 0)) = drive calls (createPRNG now None).
Proof.
  intros Hz H0. split.
  - f_equal. rewrite !createPRNG_valid by lia. now rewrite H0.
  - now rewrite !createPRNG_invalid.
Qed.

Lemma zero_remap_witness :
  drive [CallRandomInt 0 999999] (createPRNG 5 (Some 4294967296))
  = drive [CallRandomInt 0 999999] (createPRNG 7 (Some 1))
  /\ drive [CallRandomInt 0 999999] (createPRNG 5 (Some 0))
     = drive [CallRandomInt 0 999999] (createPRNG 5 None).
Proof.
  apply (zero_remap 4294967296 5 7 [CallRandomInt 0 999999]).
  - lia.
  - reflexivity.
Defined.

(** ** The session seed ([init]) *)

(** C6, as stated, fails at the override seed 0: [init] discards it and
    reports the seed mixed from the clock and the ambient random scalar
    (here 500000, from [Math.random() = 0.5]). *)
Lemma init_zero_seed_counterexample :
  let env := demo_env in
  getStatus_sessionSeed (init env (Some 0) (mkOptions None None) default_config)
    = 1680243332
  /\ getStatus_sessionSeed (init env (Some 0) (mkOptions None None) default_config)
    <> 0.
Proof. split; vm_compute; [reflexivity | discriminate]. Qed.

(** With a non-zero override the session is the same whatever the
    environment answers. *)
Lemma init_override_env_free (s : Z) (env1 env2 : Env) (options : Options)
      (cfg : Config) :
  s <> 0 -> init env1 (Some s) options cfg = init env2 (Some s) options cfg.
Proof.
  intros Hs. unfold init.
  destruct (Z.eqb_spec s 0) as [E | _]; [contradiction |].
  f_equal. now apply createPRNG_clock_free.
Qed.

(** Content-keyed noise does not consult the clock unless the content
    seed cancels to 0. *)
Lemma spoofGetImageData_clock_free (now1 now2 : Z) (s : Session)
      (width height : Z) (data : list Z) :
  contentSeed s width height data <> 0 ->
  spoofGetImageData now1 s width height data
  = spoofGetImageData now2 s width height data.
Proof.
  intros H. unfold spoofGetImageData.
  now rewrite (createPRNG_clock_free now1 now2).
Qed.

(** C6 (amended): for every explicitly supplied non-zero override seed s,
    init(s, options) adopts s verbatim as the session seed, bypassing the
    entropy mixing, so that getStatus() reports sessionSeed = s, the
    session generator is createPRNG(s) and its draws do not depend on the
    environment; pixel noise is likewise independent of the environment
    whenever the content seed is non-zero. *)
Theorem init_override_seed (s : Z) (env1 env2 : Env) (options : Options)
        (cfg : Config) :
  s <> 0 ->
  getStatus_sessionSeed (init env1 (Some s) options cfg) = s
  /\ prng (init env1 (Some s) options cfg) = createPRNG (now_prng env2) (Some s)
  /\ (forall calls : list call,
         drive calls (prng (init env1 (Some s) options cfg))
         = drive calls (prng (init env2 (Some s) options cfg)))
  /\ (forall (now1 now2 width height : Z) (data : list Z),
         contentSeed (init env1 (Some s) options cfg) width height data <> 0 ->
         spoofGetImageData now1 (init env1 (Some s) options cfg) width height data
         = spoofGetImageData now2 (init env2 (Some s) options cfg) width height data).
Proof.
  intros Hs.
  rewrite (init_override_env_free s env1 env2 options cfg Hs).
  split; [| split; [| split]].
  - unfold getStatus_sessionSeed, init; cbn.
    destruct (Z.eqb_spec s 0); [contradiction | reflexivity].
  - unfold init; cbn.
    destruct (Z.eqb_spec s 0); [contradiction | reflexivity].
  - reflexivity.
  - intros. now apply spoofGetImageData_clock_free.
Qed.

Lemma init_override_seed_witness :
  let env1 := mkEnv 1700000000000 [0; 0; 0; 0; 128; 132; 30; 65] 1700000000002 in
  let env2 := mkEnv 1800000000000 [0; 0; 0; 0; 128; 132; 14; 65] 1800000000002 in
  let o := mkOptions (Some 2) None in
  getStatus_sessionSeed (init env1 (Some 12345) o default_config) = 12345
  /\ prng (init env1 (Some 12345) o default_config)
     = createPRNG (now_prng env2) (Some 12345)
  /\ (forall calls : list call,
         drive calls (prng (init env1 (Some 12345) o default_config))
         = drive calls (prng (init env2 (Some 12345) o default_config)))
  /\ (forall (now1 now2 width height : Z) (data : list Z),
         contentSeed (init env1 (Some 12345) o default_config) width height data <> 0 ->
         spoofGetImageData now1 (init env1 (Some 12345) o default_config) width height data
         = spoofGetImageData now2 (init env2 (Some 12345) o default_config) width height data).
Proof.
  intros env1 env2 o.
  apply (init_override_seed 12345 env1 env2 o default_config). lia.
Defined.

(** ** Pixel read-back and export *)

(** Two read-backs of the unchanged 4x4 red surface agree for the session
    seed 12345, whatever the clock shows. *)
Example readback_stable_12345 (now1 now2 : Z) :
  let s := init demo_env (Some 12345) (mkOptions None None) default_config in
  spoofGetImageData now1 s 4 4 red4x4 = spoofGetImageData now2 s 4 4 red4x4.
Proof.
  intros s. apply spoofGetImageData_clock_free. vm_compute. discriminate.
Qed.

(** C2: the failing input.  With the session seed 1122565549, which is
    the FNV-1a hash of the fingerprint of the 4x4 red surface, the content
    seed is 0, [createPRNG] falls back to the clock, and two read-backs of
    the unchanged surface one millisecond apart differ. *)
Theorem readback_unstable_at_colliding_seed :
  let s := init demo_env (Some 1122565549) (mkOptions None None)
                default_config in
  sessionSeed s = hash (contentFingerprint 4 4 red4x4)
  /\ contentSeed s 4 4 red4x4 = 0
  /\ spoofGetImageData 1700000000000 s 4 4 red4x4
     <> spoofGetImageData 1700000000001 s 4 4 red4x4.
Proof. repeat split; vm_compute; discriminate. Qed.

(** An export draws its transform from the session generator and leaves
    the generator advanced; the seed and the configuration stay. *)
Lemma spoofToDataURL_session (CanvasEl Arg : Type)
      (drawImage : list ctx_op -> CanvasEl -> CanvasEl)
      (native_toDataURL : CanvasEl -> Arg -> Arg -> string)
      (s : Session) (canvasEl : CanvasEl) (type quality : Arg) :
  let ops := fst (applyCanvasTransform (prng s)) in
  spoofToDataURL CanvasEl Arg drawImage native_toDataURL s canvasEl type quality
  = (native_toDataURL (drawImage ops canvasEl) type quality,
     mkSession (snd (applyCanvasTransform (prng s))) (sessionSeed s)
               (canvasConfig s)).
Proof.
  unfold spoofToDataURL.
  now destruct (applyCanvasTransform (prng s)) as [ops state].
Qed.

(** For the session seed 12345 the transforms of two successive exports
    differ: the first translates by less than 0.1 along x, the second by
    more. *)
Example export_transforms_drift :
  let s0 := createPRNG 0 (Some 12345) in
  let s1 := snd (applyCanvasTransform s0) in
  fst (applyCanvasTransform s0) <> fst (applyCanvasTransform s1).
Proof.
  intros s0 s1 H.
  apply (f_equal (fun ops => match ops with
                             | Translate x _ :: _ => PrimFloat.ltb x 0.125%float
                             | _ => false
                             end)) in H.
  vm_compute in H. discriminate.
Qed.

(** The generator state left by a canvas transform is five steps on. *)
Lemma xorshift32_next (state u state' : Z) :
  xorshift32 state = (u, state') ->
  ToUint32 state' = xorshift32_u (ToUint32 state).
Proof.
  intros E. rewrite <- (proj2 (xorshift32_unsigned state)). now rewrite E.
Qed.

Lemma applyCanvasTransform_state (state : Z) :
  ToUint32 (snd (applyCanvasTransform state)) = five_steps (ToUint32 state).
Proof.
  unfold applyCanvasTransform, randomRange, five_steps.
  destruct (xorshift32 state) as [u1 s1] eqn:E1.
  destruct (xorshift32 s1) as [u2 s2] eqn:E2.
  destruct (xorshift32 s2) as [u3 s3] eqn:E3.
  destruct (xorshift32 s3) as [u4 s4] eqn:E4.
  destruct (xorshift32 s4) as [u5 s5] eqn:E5.
  cbn [snd].
  rewrite <- (xorshift32_next _ _ _ E1), <- (xorshift32_next _ _ _ E2),
    <- (xorshift32_next _ _ _ E3), <- (xorshift32_next _ _ _ E4).
  exact (xorshift32_next _ _ _ E5).
Qed.

(** X21: whatever the session seed, an export leaves the session
    generator in a state other than the one it found, so the next export
    draws its transform from elsewhere in the sequence. *)
Lemma export_advances_generator (now : Z) (seed : seed_arg) :
  let state := createPRNG now seed in
  ToUint32 (snd (applyCanvasTransform state)) <> state.
Proof.
  intros state. rewrite applyCanvasTransform_state.
  pose proof (createPRNG_state now seed) as Hs. fold state in Hs.
  rewrite ToUint32_small by lia.
  now apply five_steps_no_fixpoint.
Qed.

(** ** The clamp invariant *)

Lemma clamp255_byte (v : Z) : is_byte (clamp255 v).
Proof. unfold is_byte, clamp255. lia. Qed.

Lemma Uint8ClampedArray_store_byte (v : Z) : is_byte (Uint8ClampedArray_store v).
Proof. apply clamp255_byte. Qed.

Lemma Uint8Array_store_byte (v : Z) : is_byte (WebGL.Uint8Array_store v).
Proof.
  unfold is_byte, WebGL.Uint8Array_store.
  pose proof (Z.mod_pos_bound v 256). lia.
Qed.

(** A clamped value passes through either kind of store unchanged, so the
    explicit [Math.max]/[Math.min] of the colour channels is what bounds
    them. *)
Lemma store_clamped (v : Z) :
  Uint8ClampedArray_store (clamp255 v) = clamp255 v
  /\ WebGL.Uint8Array_store (clamp255 v) = clamp255 v.
Proof.
  unfold Uint8ClampedArray_store, WebGL.Uint8Array_store, clamp255. split.
  - lia.
  - apply Z.mod_small. lia.
Qed.

Create HintDb bytes.

#[local] Hint Resolve clamp255_byte Uint8ClampedArray_store_byte
  Uint8Array_store_byte : bytes.

(** Induction over a buffer in groups of four, and of three, elements. *)
Lemma list_ind4 (A : Type) (P : list A -> Prop) :
  P [] -> (forall a, P [a]) -> (forall a b, P [a; b]) ->
  (forall a b c, P [a; b; c]) ->
  (forall a b c d rest, P rest -> P (a :: b :: c :: d :: rest)) ->
  forall l, P l.
Proof.
  intros H0 H1 H2 H3 H4.
  fix IH 1.
  intros [| a [| b [| c [| d rest]]]];
    [exact H0 | apply H1 | apply H2 | apply H3 | apply H4; apply IH].
Qed.

Lemma list_ind3 (A : Type) (P : list A -> Prop) :
  P [] -> (forall a, P [a]) -> (forall a b, P [a; b]) ->
  (forall a b c rest, P rest -> P (a :: b :: c :: rest)) ->
  forall l, P l.
Proof.
  intros H0 H1 H2 H3.
  fix IH 1.
  intros [| a [| b [| c rest]]];
    [exact H0 | apply H1 | apply H2 | apply H3; apply IH].
Qed.

Ltac split_draws :=
  repeat match goal with
         | |- context [randomInt ?a ?b ?s] =>
             let n := fresh "noise" in
             let st := fresh "st" in
             destruct (randomInt a b s) as [n st]
         end.

(** The noise loop keeps every byte a byte: the three colour channels are
    clamped, a rewritten alpha goes through the clamping store, and an
    alpha other than 255 is the input byte. *)
Lemma noise_loop_bytes (cfg : Config) (data : list Z) :
  Forall is_byte data ->
  forall st, Forall is_byte (fst (noise_loop cfg data st)).
Proof.
  induction data as [| r | r g | r g b | r g b a rest IH] using list_ind4;
    intros Hin st; cbn [noise_loop].
  - constructor.
  - split_draws. cbv [fst]. repeat apply Forall_cons; auto with bytes.
  - split_draws. cbv [fst]. repeat apply Forall_cons; auto with bytes.
  - split_draws. cbv [fst]. repeat apply Forall_cons; auto with bytes.
  - inversion Hin as [| ? ? _ Hin1]; subst.
    inversion Hin1 as [| ? ? _ Hin2]; subst.
    inversion Hin2 as [| ? ? _ Hin3]; subst.
    inversion Hin3 as [| ? ? Ha Hrest]; subst.
    split_draws.
    destruct (a =? 255); split_draws;
      match goal with
      | |- context [noise_loop cfg rest ?s] =>
          specialize (IH Hrest s);
          destruct (noise_loop cfg rest s) as [rest' st']
      end;
      cbv [fst] in *; repeat apply Forall_cons; auto with bytes.
Qed.

Lemma readPixels_loop4_bytes (noise : Z -> Z) (pixels : list Z) :
  Forall is_byte pixels ->
  forall i, Forall is_byte (WebGL.readPixels_loop4 noise i pixels).
Proof.
  induction pixels as [| r | r g | r g b | r g b a rest IH] using list_ind4;
    intros Hin i; cbn [WebGL.readPixels_loop4];
    try (repeat apply Forall_cons; now auto with bytes).
  inversion Hin as [| ? ? _ Hin1]; subst.
  inversion Hin1 as [| ? ? _ Hin2]; subst.
  inversion Hin2 as [| ? ? _ Hin3]; subst.
  inversion Hin3 as [| ? ? Ha Hrest]; subst.
  repeat apply Forall_cons; auto with bytes.
Qed.

Lemma readPixels_loop3_bytes (noise : Z -> Z) (pixels : list Z) :
  forall i, Forall is_byte (WebGL.readPixels_loop3 noise i pixels).
Proof.
  induction pixels as [| r | r g | r g b rest IH] using list_ind3;
    intros i; cbn [WebGL.readPixels_loop3];
    repeat apply Forall_cons; auto with bytes.
Qed.

(** C9: for every input buffer of bytes, every noise-range configuration
    and every generator state (session seed and clock reading), every
    byte returned by the wrapped getImageData and every byte left in the
    buffer by the wrapped readPixels lies in [0, 255]. *)
Theorem clamp_invariant (now : Z) (s : Session) (canvas_w canvas_h : Z)
        (data : list Z) (gl : WebGL.GL) (x y width height format : Z)
        (pixels : list Z) :
  Forall is_byte data -> Forall is_byte pixels ->
  Forall is_byte (spoofGetImageData now s canvas_w canvas_h data)
  /\ Forall is_byte (WebGL.readPixels gl x y width height format pixels).
Proof.
  intros Hdata Hpixels. split.
  - unfold spoofGetImageData. now apply noise_loop_bytes.
  - unfold WebGL.readPixels.
    destruct (format =? WebGL.RGB gl); cbn.
    + apply readPixels_loop3_bytes.
    + now apply readPixels_loop4_bytes.
Qed.

Lemma clamp_invariant_witness :
  Forall is_byte
    (spoofGetImageData 0 (mkSession 12345 12345 (mkConfig 300 1000)) 4 4 red4x4)
  /\ Forall is_byte
       (WebGL.readPixels (WebGL.webgl_context "c") 0 0 1 1 0x1908 [0; 100; 255; 255]).
Proof.
  apply clamp_invariant.
  - apply (Forall_impl is_byte (P := fun v => v = 255 \/ v = 0));
      [unfold is_byte; lia |].
    unfold red4x4; repeat apply Forall_cons; auto.
  - repeat apply Forall_cons; unfold is_byte; try lia; constructor.
Defined.

(** ** The fallback contract *)

Section FallbackFacts.

Import Fallback.

Variables (World Value Error : Type).
Variable console_error : string -> string -> Error -> World -> World.
Variable new_Error : string -> Error.

(** When the spoof path returns, its value is the result and the
    original is not called. *)
Lemma tryOrFallback_spoofed (mode : SpoofMode)
      (nativeFn spoofFn : js_function World Value Error)
      (context : Value) (args : list Value) (moduleName : string)
      (w w' : World) (v : Value) :
  spoofFn context args w = (Return v, w') ->
  tryOrFallback console_error new_Error mode nativeFn spoofFn context args
                moduleName w
  = (Return v, w').
Proof. intros H. unfold Fallback.tryOrFallback. now rewrite H. Qed.

(** In hard-block mode a failure of the spoof path is propagated. *)
Lemma tryOrFallback_hardBlock (mode : SpoofMode)
      (nativeFn spoofFn : js_function World Value Error)
      (context : Value) (args : list Value) (moduleName : string)
      (w w' : World) (e : Error) :
  spoofFn context args w = (Throw e, w') ->
  hardBlock mode = true ->
  exists e' w'',
    tryOrFallback console_error new_Error mode nativeFn spoofFn context args
                  moduleName w
    = (Throw e', w'').
Proof.
  intros H Hb. unfold Fallback.tryOrFallback. rewrite H, Hb. eauto.
Qed.

(** The replacements installed by [patch] fall back to the original with
    the parameters they declare, which are the caller's arguments when
    the caller passes exactly those. *)
Lemma declared_parameters_exact (undefined : Value) (args : list Value) :
  declared_parameters undefined (List.length args) args = args.
Proof.
  unfold declared_parameters.
  induction args as [| a args IH]; [reflexivity |].
  cbn [List.length seq map nth]. f_equal.
  rewrite <- seq_shift, map_map. exact IH.
Qed.

Lemma wrapper_native (undefined : Value) (mode : SpoofMode)
      (original : js_function World Value Error)
      (spoof : js_function World Value Error -> js_function World Value Error)
      (moduleName : string) (this : Value) (args : list Value)
      (w w' : World) (e : Error) :
  spoof original this args w = (Throw e, w') ->
  hardBlock mode = false ->
  wrapper console_error new_Error undefined mode original spoof
          (List.length args) moduleName this args w
  = original this args
      (logError console_error mode moduleName e
                "Spoofing failed, falling back to native" w').
Proof.
  intros H Hb. unfold wrapper, Fallback.tryOrFallback.
  rewrite declared_parameters_exact. now rewrite H, Hb.
Qed.

(** If the spoof path throws and hard-block mode is disabled,
    [tryOrFallback] completes as [nativeFn.apply(context, args)] does on
    the array it was handed, invoked once the failure has been logged. *)
Lemma tryOrFallback_native (mode : SpoofMode)
        (nativeFn spoofFn : js_function World Value Error)
        (context : Value) (args : list Value) (moduleName : string)
        (w w' : World) (e : Error) :
  spoofFn context args w = (Throw e, w') ->
  hardBlock mode = false ->
  tryOrFallback console_error new_Error mode nativeFn spoofFn context args
                moduleName w
  = nativeFn context args
      (logError console_error mode moduleName e
                "Spoofing failed, falling back to native" w').
Proof.
  intros H Hb. unfold Fallback.tryOrFallback. now rewrite H, Hb.
Qed.

(** C3 (amended): for a replacement that declares [arity] parameters,
    every receiver and every argument list: if the spoof path throws and
    hard-block mode is disabled, the wrapped call completes exactly as the
    captured original does for the same receiver and the replacement's
    declared parameters (the first [arity] arguments, [undefined] for the
    missing ones), invoked once the failure has been logged; for an
    argument list of exactly [arity] entries these are the caller's own
    arguments. *)
Theorem wrapper_falls_back_to_original (undefined : Value) (mode : SpoofMode)
        (original : js_function World Value Error)
        (spoof : js_function World Value Error -> js_function World Value Error)
        (arity : nat) (moduleName : string) (this : Value) (args : list Value)
        (w w' : World) (e : Error) :
  spoof original this (declared_parameters undefined arity args) w
  = (Throw e, w') ->
  hardBlock mode = false ->
  wrapper console_error new_Error undefined mode original spoof arity
          moduleName this args w
  = original this (declared_parameters undefined arity args)
      (logError console_error mode moduleName e
                "Spoofing failed, falling back to native" w')
  /\ (List.length args = arity ->
      wrapper console_error new_Error undefined mode original spoof arity
              moduleName this args w
      = original this args
          (logError console_error mode moduleName e
                    "Spoofing failed, falling back to native" w')).
Proof.
  intros H Hb.
  assert (Hw : wrapper console_error new_Error undefined mode original spoof
                       arity moduleName this args w
               = original this (declared_parameters undefined arity args)
                   (logError console_error mode moduleName e
                             "Spoofing failed, falling back to native" w')).
  { unfold wrapper. now apply tryOrFallback_native. }
  split; [exact Hw |].
  intros <-. rewrite Hw. now rewrite declared_parameters_exact.
Qed.

End FallbackFacts.

(** C3, as stated, fails: the replacement of getImageData declares four
    parameters, so on a call with a fifth argument the fallback hands the
    original four arguments, and the original answers as it does without
    the fifth. *)
Lemma fallback_arguments_counterexample :
  let getImageData :=
    Fallback.wrapper demo_console (fun m => m) [] Fallback.SPOOF_MODE
      demo_native_settings (fun _ => demo_failing_spoof) 4
      "canvas.getImageData" in
  let this := [255; 0; 0; 255] in
  let args := [[0]; [0]; [1]; [1]; [7]] in
  Fallback.hardBlock Fallback.SPOOF_MODE = false
  /\ fst (demo_failing_spoof this args []) = Fallback.Throw "TypeError"%string
  /\ fst (getImageData this args []) = Fallback.Return [255; 0; 0; 255]
  /\ fst (demo_native_settings this args []) = Fallback.Return [7]
  /\ fst (getImageData this args []) <> fst (demo_native_settings this args []).
Proof.
  cbv zeta. repeat split; try reflexivity. vm_compute. discriminate.
Qed.

Lemma wrapper_falls_back_to_original_witness :
  Fallback.wrapper demo_console (fun m => m) [] Fallback.SPOOF_MODE
    demo_native_settings (fun _ => demo_failing_spoof) 4 "canvas.getImageData"
    [255; 0; 0; 255] [[0]; [0]; [1]; [1]; [7]] []
  = demo_native_settings [255; 0; 0; 255] [[0]; [0]; [1]; [1]]
      (Fallback.logError demo_console Fallback.SPOOF_MODE "canvas.getImageData"
         "TypeError"%string "Spoofing failed, falling back to native" []).
Proof.
  apply (wrapper_falls_back_to_original (list string) (list Z) string
           demo_console (fun m => m) [] Fallback.SPOOF_MODE demo_native_settings
           (fun _ => demo_failing_spoof) 4 "canvas.getImageData"
           [255; 0; 0; 255] [[0]; [0]; [1]; [1]; [7]] [] []
           "TypeError"%string);
    reflexivity.
Defined.

(** ** The patch registry *)

Section RegistryFacts.

Import Registry.

(** Where nothing throws, [patch()] captures the three properties and
    installs three new closures, and [unpatch()] puts the captured
    references back. *)
Lemma patch_eq (w : World) :
  patch w
  = if isPatched w then (true, w)
    else
      let n := next_closure w in
      (true,
       mkWorld (mkSlots (Some (Wrapper GetImageData n))
                        (Some (Wrapper ToDataURL (S n)))
                        (Some (Wrapper GetContext (S (S n)))))
               (mkSlots (getImageData (prototypes w)) (toDataURL (prototypes w))
                        (getContext (prototypes w)))
               true (S (S (S n)))).
Proof. unfold patch, patch_on. now destruct (isPatched w). Qed.

Lemma unpatch_eq (w : World) :
  unpatch w
  = if negb (isPatched w) then (true, w)
    else
      (true,
       mkWorld (mkSlots (getImageData (originalMethods w))
                        (toDataURL (originalMethods w))
                        (getContext (originalMethods w)))
               (originalMethods w) false (next_closure w)).
Proof. unfold unpatch, unpatch_on. now destruct (isPatched w). Qed.


Lemma unpatch_unpatched (w : World) : isPatched (snd (unpatch w)) = false.
Proof. rewrite unpatch_eq. destruct (isPatched w) eqn:E; [reflexivity | exact E]. Qed.



Lemma slots_eta (s : slots) :
  mkSlots (getImageData s) (toDataURL s) (getContext s) = s.
Proof. now destruct s. Qed.

Lemma registry_invariant_step (host : slots) (w : World) (t : toggle) :
  registry_invariant host w -> registry_invariant host (apply_toggle w t).
Proof.
  unfold registry_invariant, apply_toggle. rewrite patch_eq, unpatch_eq.
  destruct t; destruct (isPatched w) eqn:E; cbn; rewrite ?E, ?slots_eta; auto.
Qed.

Lemma registry_invariant_toggles (host : slots) (ts : list toggle) :
  forall w, registry_invariant host w -> registry_invariant host (toggles ts w).
Proof.
  induction ts as [| t ts IH]; intros w H; [exact H |].
  cbn. apply IH. now apply registry_invariant_step.
Qed.

(** After any history, [patch(); unpatch()] leaves the host's references
    in the three prototype slots. *)
Lemma patch_unpatch_after_history (host : slots) (ts : list toggle) :
  prototypes (snd (unpatch (snd (patch (toggles ts (loaded host)))))) = host.
Proof.
  pose proof (registry_invariant_toggles host ts (loaded host) eq_refl) as H.
  pose proof (registry_invariant_step host _ Patch H) as H1.
  pose proof (registry_invariant_step host _ Unpatch H1) as H2.
  unfold registry_invariant in H2. cbn [apply_toggle] in H2.
  now rewrite unpatch_unpatched in H2.
Qed.


End RegistryFacts.


(** ** The WebGL wrappers *)

Section WebGLFacts.

Import WebGL.

Context {CanvasEl Args : Type} (host : Host CanvasEl Args).

(** What gets installed, when something is. *)
Lemma install_some (s : Session) (gl : GL) (contextType : string)
      (i : Installed CanvasEl Args) :
  contextHook host s gl contextType = Some i ->
  i = mkInstalled getExtension (fun activeProfile => getParameter activeProfile gl)
        (readPixels gl) (toDataURL host gl) (toBlob host gl).
Proof.
  unfold contextHook, applyWebGLSpoofing.
  destruct (negb (enabled s)); [discriminate |].
  destruct (is_webgl contextType); [| discriminate].
  destruct (_ && _); [discriminate |].
  now intros [= <-].
Qed.

(** Every profile of the catalogue supports WebGL2, so with protection
    enabled and a profile drawn from it the wrappers are installed on
    every WebGL context. *)
Lemma install_catalogue (s : Session) (gl : GL) (contextType : string) :
  enabled s = true -> is_webgl contextType = true ->
  In (activeProfile s) profiles ->
  exists i, contextHook host s gl contextType = Some i.
Proof.
  intros He Hw Hin. unfold contextHook, applyWebGLSpoofing.
  rewrite He, Hw. cbn [negb].
  assert (supportsWebGL2 (activeProfile s) = true) as ->.
  { destruct Hin as [<- | [<- | []]]; reflexivity. }
  rewrite andb_false_r. eauto.
Qed.

(** C7: with the wrappers installed by the context hook for a session, on
    a context carrying the standard VENDOR and RENDERER constants,
    getParameter answers the unmasked-renderer token 0x9246 with the
    unmaskedRenderer of the profile active at the call, the
    unmasked-vendor token 0x9245 with its unmaskedVendor, VENDOR and
    RENDERER with its vendor and renderer, and every other token with
    what the original getParameter returns. *)
Theorem getParameter_spoofed (s : Session) (gl : GL) (contextType : string)
        (i : Installed CanvasEl Args) (active : Profile)
        (originalGetParameter : Z -> jsval) (pname : Z) :
  contextHook host s gl contextType = Some i ->
  VENDOR gl = 0x1F00 -> RENDERER gl = 0x1F01 ->
  inst_getParameter i active originalGetParameter 0x9246
    = VString (unmaskedRenderer active)
  /\ inst_getParameter i active originalGetParameter 0x9245
     = VString (unmaskedVendor active)
  /\ inst_getParameter i active originalGetParameter (VENDOR gl)
     = VString (vendor active)
  /\ inst_getParameter i active originalGetParameter (RENDERER gl)
     = VString (renderer active)
  /\ (pname <> 0x9246 -> pname <> 0x9245 ->
      pname <> VENDOR gl -> pname <> RENDERER gl ->
      inst_getParameter i active originalGetParameter pname
      = originalGetParameter pname).
Proof.
  intros Hi Hv Hr. rewrite (install_some _ _ _ _ Hi). cbn [inst_getParameter].
  unfold getParameter. rewrite Hv, Hr.
  repeat split; try reflexivity.
  intros H1 H2 H3 H4.
  repeat match goal with
         | |- context [pname =? ?c] =>
             destruct (Z.eqb_spec pname c); [congruence |]
         end.
  reflexivity.
Qed.

(** C10: the replacements of readPixels, toDataURL and toBlob installed
    for two sessions, whatever their generator states and active
    profiles, are the same functions of the read rectangle, the format,
    the buffer, the canvas and its id: the perturbation they apply does
    not vary with the session. *)
Theorem webgl_noise_session_independent (s1 s2 : Session) (gl : GL)
        (contextType : string) (i1 i2 : Installed CanvasEl Args) :
  contextHook host s1 gl contextType = Some i1 ->
  contextHook host s2 gl contextType = Some i2 ->
  inst_readPixels i1 = inst_readPixels i2
  /\ inst_toDataURL i1 = inst_toDataURL i2
  /\ inst_toBlob i1 = inst_toBlob i2.
Proof.
  intros H1 H2.
  rewrite (install_some _ _ _ _ H1), (install_some _ _ _ _ H2).
  repeat split.
Qed.

End WebGLFacts.

(** The identity answered by getParameter, by contrast, follows the
    session. *)
Example getParameter_follows_session :
  WebGL.getParameter WebGL.nvidia_rtx_3080 (WebGL.webgl_context "")
                     (fun _ => WebGL.VNull) 0x9245
  <> WebGL.getParameter WebGL.amd_radeon_rx_6800 (WebGL.webgl_context "")
                        (fun _ => WebGL.VNull) 0x9245.
Proof. vm_compute. discriminate. Qed.

(** The noise of [readPixels] lies in [-9, 3]: the remainder keeps the
    sign of the hash, which is negative for about half of the seeds. *)
Lemma pixelNoise_range (x y width height index : Z) :
  -9 <= WebGL.pixelNoise x y width height index <= 3.
Proof.
  unfold WebGL.pixelNoise, rem.
  match goal with |- context [Z.rem ?h 7] =>
    pose proof (Z.rem_bound_abs h 7);
    assert (Z.abs (Z.rem h 7) < 7)
      by (destruct (Z_le_dec 0 h);
          [pose proof (Z.rem_bound_pos h 7) | pose proof (Z.rem_bound_neg_neg h 7)]; lia)
  end.
  lia.
Qed.

(** With four components per pixel the alpha byte of every complete pixel
    is left as the original call wrote it. *)
Lemma readPixels_loop4_alpha (noise : Z -> Z) (pixels : list Z) :
  forall (i : Z) (k : nat),
    (4 * k + 3 < List.length pixels)%nat ->
    nth_error (WebGL.readPixels_loop4 noise i pixels) (4 * k + 3)
    = nth_error pixels (4 * k + 3).
Proof.
  induction pixels as [| r | r g | r g b | r g b a rest IH] using list_ind4;
    intros i k Hk; cbn [List.length] in Hk; try lia.
  destruct k as [| k].
  - reflexivity.
  - replace (4 * S k + 3)%nat with (S (S (S (S (4 * k + 3))))) by lia.
    cbn [WebGL.readPixels_loop4 nth_error]. apply IH. lia.
Qed.

(** C8: the failing input.  Reading the 1x1 rectangle at the origin, the
    offsets of the three colour bytes are -6, -5 and -4, and the flat
    index 4 gives -9: outside the documented range [-3, 3]. *)
Theorem readPixels_noise_exceeds_documented_range :
  map (WebGL.pixelNoise 0 0 1 1) [0; 1; 2; 4] = [-6; -5; -4; -9]
  /\ WebGL.readPixels (WebGL.webgl_context "") 0 0 1 1 0x1908 [100; 100; 100; 255]
     = [94; 95; 96; 255].
Proof. split; reflexivity. Qed.

Lemma getParameter_spoofed_witness :
  let gl := WebGL.webgl_context "c" in
  let active := WebGL.activeProfile demo_session1 in
  let orig := fun pname : Z => WebGL.VNumber (pname + 1) in
  exists i,
    WebGL.contextHook demo_host demo_session1 gl "webgl" = Some i
    /\ WebGL.inst_getParameter i active orig 0x9246
       = WebGL.VString
           "ANGLE (NVIDIA, NVIDIA GeForce RTX 3080 Direct3D11 vs_5_0 ps_5_0, D3D11)"
    /\ WebGL.inst_getParameter i active orig 0x0D33 = WebGL.VNumber 0x0D34.
Proof.
  intros gl active orig. eexists. split; [reflexivity |].
  destruct (getParameter_spoofed demo_host demo_session1 gl "webgl" _ active
              orig 0x0D33 eq_refl eq_refl eq_refl) as (H1 & _ & _ & _ & H5).
  split; [exact H1 |].
  apply H5; vm_compute; discriminate.
Defined.

Lemma webgl_noise_session_independent_witness :
  let gl := WebGL.webgl_context "c" in
  exists i1 i2,
    WebGL.contextHook demo_host demo_session1 gl "webgl2" = Some i1
    /\ WebGL.contextHook demo_host demo_session2 gl "webgl2" = Some i2
    /\ WebGL.inst_readPixels i1 = WebGL.inst_readPixels i2
    /\ WebGL.inst_toDataURL i1 = WebGL.inst_toDataURL i2
    /\ WebGL.inst_toBlob i1 = WebGL.inst_toBlob i2.
Proof.
  intros gl. eexists. eexists.
  split; [reflexivity |]. split; [reflexivity |].
  apply (webgl_noise_session_independent demo_host demo_session1 demo_session2
           gl "webgl2");
    reflexivity.
Defined.

(* ===================================================================== *)
(** * Further properties of the sources *)
(* ===================================================================== *)

(** ** The generator *)

Lemma xorshift32_draw_range (state : Z) : 0 <= fst (xorshift32 state) < 2 ^ 32.
Proof.
  rewrite (proj1 (xorshift32_unsigned state)).
  rewrite <- (proj2 (xorshift32_unsigned state)). apply ToUint32_range.
Qed.

Lemma randomInt_spec (min max state : Z) :
  randomInt min max state
  = (fst (xorshift32 state) * (max - min + 1) / 4294967296 + min,
     snd (xorshift32 state)).
Proof. unfold randomInt. now destruct (xorshift32 state). Qed.

Lemma randomInt_bounds (min max state : Z) :
  min <= max -> min <= fst (randomInt min max state) <= max.
Proof.
  intros Hle. rewrite randomInt_spec. cbn [fst].
  pose proof (xorshift32_draw_range state) as Hu.
  set (u := fst (xorshift32 state)) in *.
  set (n := max - min + 1).
  assert (0 <= u * n / 4294967296 < n).
  { change 4294967296 with (2 ^ 32). split.
    - apply Z.div_pos; nia.
    - apply Z.div_lt_upper_bound; nia. }
  lia.
Qed.

(** X1: for integer bounds [min <= max] that a double holds exactly
    (magnitude at most 2^53) and a span [max - min + 1] of at most 2^21,
    where every step of the code's double arithmetic is exact,
    [randomInt(min, max)] returns an integer of the inclusive range
    whatever the state of the generator; the product of the raw draw
    and the span, which the code forms in a double, stays below 2^53. *)
Theorem randomInt_in_range (min max state : Z) :
  min <= max ->
  max - min + 1 <= 2 ^ 21 ->
  - 2 ^ 53 <= min ->
  max <= 2 ^ 53 ->
  min <= fst (randomInt min max state) <= max
  /\ 0 <= fst (xorshift32 state) * (max - min + 1) < 2 ^ 53.
Proof.
  intros Hle Hspan Hmin Hmax.
  split; [now apply randomInt_bounds |].
  pose proof (xorshift32_draw_range state) as Hu.
  change (2 ^ 53) with (2 ^ 32 * 2 ^ 21). nia.
Qed.

Lemma randomInt_in_range_witness :
  -5 <= fst (randomInt (-5) 5 (createPRNG 0 (Some 12345))) <= 5.
Proof. apply (randomInt_in_range (-5) 5); lia. Defined.

Lemma xorshift32_u_inverse_basis (k : nat) :
  (k < 32)%nat ->
  lin Generator.xorshift32_u_inverse 0 (xorshift32_u (2 ^ Z.of_nat k))
  = 2 ^ Z.of_nat k.
Proof.
  intros Hk.
  do 32 (destruct k as [| k]; [vm_compute; reflexivity |]).
  lia.
Qed.

Lemma xorshift32_u_inverse_left (x : Z) :
  0 <= x < 2 ^ 32 ->
  lin Generator.xorshift32_u_inverse 0 (xorshift32_u x) = x.
Proof.
  intros Hx.
  apply (linear_ext (fun x => lin Generator.xorshift32_u_inverse 0 (xorshift32_u x))
                    (fun x => x)) with (n := 32%nat).
  - apply linear_compose; [apply lin_linear | apply xorshift32_u_linear].
  - intros a b. reflexivity.
  - apply xorshift32_u_inverse_basis.
  - exact Hx.
Qed.

Lemma xorshift32_u_injective (x y : Z) :
  0 <= x < 2 ^ 32 -> 0 <= y < 2 ^ 32 ->
  xorshift32_u x = xorshift32_u y -> x = y.
Proof.
  intros Hx Hy E.
  rewrite <- (xorshift32_u_inverse_left x Hx), <- (xorshift32_u_inverse_left y Hy).
  now rewrite E.
Qed.

Lemma xorshift32_u_0 : xorshift32_u 0 = 0.
Proof. reflexivity. Qed.

Lemma xorshift32_u_nonzero (x : Z) :
  0 <= x < 2 ^ 32 -> x <> 0 -> xorshift32_u x <> 0.
Proof.
  intros Hx Hne E. apply Hne.
  apply xorshift32_u_injective; [exact Hx | lia |].
  now rewrite xorshift32_u_0.
Qed.

Lemma step_state (c : call) (state : Z) :
  snd (step c state) = state \/ snd (step c state) = snd (xorshift32 state).
Proof.
  destruct c; cbn [step];
    unfold random, randomInt, randomRange;
    destruct (xorshift32 state); cbn [snd]; auto.
Qed.

(** X2: the state of a generator is never 0 (read as a uint32): not
    after [createPRNG], whatever the seed and the clock, and not after
    any sequence of random/randomInt/randomRange/hash calls; so every raw
    draw lies in [1, 2^32 - 1]. *)
Theorem state_never_zero (now : Z) (seed : seed_arg) (calls : list call) :
  let state := Generator.advance calls (createPRNG now seed) in
  ToUint32 state <> 0
  /\ 1 <= fst (xorshift32 state) < 2 ^ 32.
Proof.
  assert (forall calls s, ToUint32 s <> 0 ->
                          ToUint32 (Generator.advance calls s) <> 0) as Hinv.
  { clear calls. induction calls as [| c calls IH]; intros s Hs; [exact Hs |].
    cbn [Generator.advance]. apply IH.
    destruct (step_state c s) as [-> | ->]; [exact Hs |].
    rewrite (proj2 (xorshift32_unsigned s)).
    apply xorshift32_u_nonzero; [apply ToUint32_range | exact Hs]. }
  intros state.
  assert (ToUint32 state <> 0) as Hs.
  { apply Hinv. pose proof (createPRNG_state now seed).
    rewrite ToUint32_small; lia. }
  split; [exact Hs |].
  pose proof (xorshift32_draw_range state).
  assert (fst (xorshift32 state) <> 0).
  { rewrite (proj1 (xorshift32_unsigned state)).
    apply xorshift32_u_nonzero; [apply ToUint32_range | exact Hs]. }
  lia.
Qed.

(** X3: two generators whose states differ (as uint32) never agree on
    their next raw draw, the numerator of [random()]; in particular two
    seeds that [createPRNG] maps to different states give different first
    draws. *)
Theorem distinct_states_distinct_draws (state1 state2 : Z) :
  ToUint32 state1 <> ToUint32 state2 ->
  fst (xorshift32 state1) <> fst (xorshift32 state2).
Proof.
  intros Hne E. apply Hne.
  rewrite !(proj1 (xorshift32_unsigned _)) in E.
  apply xorshift32_u_injective; [apply ToUint32_range | apply ToUint32_range | exact E].
Qed.

Lemma distinct_states_distinct_draws_witness :
  fst (xorshift32 (createPRNG 0 (Some 12345)))
  <> fst (xorshift32 (createPRNG 0 (Some 12346))).
Proof. apply distinct_states_distinct_draws. vm_compute. discriminate. Defined.

(** ** The FNV-1a loops *)

Lemma ToInt32_ToUint32 (z : Z) : ToInt32 (ToUint32 z) = ToInt32 z.
Proof.
  unfold ToInt32, ToUint32. f_equal. apply Zplus_mod_idemp_l.
Qed.

Lemma ToInt32_congr (a b : Z) :
  a mod 2 ^ 32 = b mod 2 ^ 32 -> ToInt32 a = ToInt32 b.
Proof.
  intros H. rewrite <- (ToInt32_ToUint32 a), <- (ToInt32_ToUint32 b).
  unfold ToUint32. now rewrite H.
Qed.

Lemma hash_loop_app (a b : string) :
  forall h, hash_loop (a ++ b) h = hash_loop b (hash_loop a h).
Proof. induction a as [| c a IH]; intros h; cbn; [reflexivity | apply IH]. Qed.

Lemma hash_loop_ToUint32 (b : string) (h : Z) :
  ToUint32 (hash_loop b (ToUint32 h)) = ToUint32 (hash_loop b h).
Proof.
  destruct b as [| c b]; cbn [hash_loop].
  - apply Z.mod_mod. lia.
  - unfold bxor. now rewrite ToInt32_ToUint32.
Qed.

(** X4: [hash] returns an unsigned 32-bit value, and the hash of a
    concatenation is obtained by resuming the loop from the hash of the
    prefix. *)
Theorem hash_resumes (a b : string) :
  0 <= hash a < 2 ^ 32
  /\ hash (a ++ b) = ToUint32 (hash_loop b (hash a)).
Proof.
  unfold hash. rewrite !ushr_0. split; [apply ToUint32_range |].
  now rewrite hash_loop_app, hash_loop_ToUint32.
Qed.

Lemma generateSeed_loop_hash_loop (base : string) :
  forall h, Harness.generateSeed_loop base h = hash_loop base h.
Proof. induction base as [| c base IH]; intros h; cbn; [reflexivity | apply IH]. Qed.

(** X5: the seed the harness generates is the generator's [hash] of the
    decimal timestamp followed by the identifier, an unsigned 32-bit
    value. *)
Theorem generateSeed_is_hash (now : Z) (identifier : string) :
  Harness.generateSeed now identifier = hash (num_to_string now ++ identifier)
  /\ 0 <= Harness.generateSeed now identifier < 2 ^ 32.
Proof.
  assert (Harness.generateSeed now identifier
          = hash (num_to_string now ++ identifier)) as E.
  { unfold Harness.generateSeed, hash. now rewrite generateSeed_loop_hash_loop. }
  split; [exact E |].
  rewrite E. unfold hash. rewrite ushr_0. apply ToUint32_range.
Qed.

Lemma shift_count_wraps (ts i : Z) :
  band (sar ts ((i + 4) * 8)) 255 = band (sar ts (i * 8)) 255.
Proof.
  unfold sar. replace ((i + 4) * 8) with (i * 8 + 1 * 32) by lia.
  now rewrite Z_mod_plus_full.
Qed.

(** X6: [generateSessionSeed] returns an unsigned 32-bit value that
    depends on the timestamp only through its low 32 bits: the shift
    count wraps at 32, so the bytes mixed in for i = 4..7 are those for
    i = 0..3 again, and two timestamps that agree modulo 2^32 give the same
    seed. *)
Theorem generateSessionSeed_low_bits (ts1 ts2 : Z) (randomBytes : list Z) :
  ts1 mod 2 ^ 32 = ts2 mod 2 ^ 32 ->
  generateSessionSeed ts1 randomBytes = generateSessionSeed ts2 randomBytes
  /\ (forall i, band (sar ts1 ((i + 4) * 8)) 255 = band (sar ts1 (i * 8)) 255)
  /\ 0 <= generateSessionSeed ts1 randomBytes < 2 ^ 32.
Proof.
  intros H. split; [| split].
  - unfold generateSessionSeed, sar. now rewrite (ToInt32_congr ts1 ts2 H).
  - intros i. apply shift_count_wraps.
  - unfold generateSessionSeed. rewrite ushr_0. apply ToUint32_range.
Qed.

Lemma generateSessionSeed_low_bits_witness :
  generateSessionSeed 1700000000000 [0; 0; 0; 0; 128; 132; 30; 65]
  = generateSessionSeed (1700000000000 + 4294967296) [0; 0; 0; 0; 128; 132; 30; 65].
Proof.
  apply (generateSessionSeed_low_bits 1700000000000 (1700000000000 + 4294967296)).
  reflexivity.
Defined.

(** ** Pixel noise *)

Ltac split_draws_range :=
  repeat match goal with
         | |- context [randomInt ?a ?b ?s] =>
             let n := fresh "noise" in
             let st := fresh "st" in
             let H := fresh "Hn" in
             pose proof (randomInt_bounds a b s) as H;
             destruct (randomInt a b s) as [n st]; cbn [fst] in H
         end.

Lemma put_bound (pr v n : Z) :
  is_byte v -> - pr <= n <= pr ->
  Z.abs (Uint8ClampedArray_store (clamp255 (v + n)) - v) <= pr.
Proof. unfold is_byte, Uint8ClampedArray_store, clamp255. lia. Qed.

Lemma alpha_bound (ar n : Z) :
  0 <= n <= ar -> Z.abs (Uint8ClampedArray_store (255 - n) - 255) <= ar.
Proof. unfold Uint8ClampedArray_store, clamp255. lia. Qed.

(** Every byte the noise loop returns is within the configured range of
    the byte it replaces. *)
Lemma noise_loop_bound (cfg : Config) (data : list Z) :
  0 <= pixelNoiseRange cfg -> 0 <= alphaNoiseRange cfg ->
  Forall is_byte data ->
  forall st,
    Forall2 (fun i o => Z.abs (o - i)
                        <= Z.max (pixelNoiseRange cfg) (alphaNoiseRange cfg))
            data (fst (noise_loop cfg data st)).
Proof.
  intros Hpr Har.
  assert (forall v n, is_byte v ->
            (- pixelNoiseRange cfg <= pixelNoiseRange cfg ->
             - pixelNoiseRange cfg <= n <= pixelNoiseRange cfg) ->
            Z.abs (Uint8ClampedArray_store (clamp255 (v + n)) - v)
            <= Z.max (pixelNoiseRange cfg) (alphaNoiseRange cfg)) as Hput.
  { intros v n Hv Hn.
    pose proof (put_bound (pixelNoiseRange cfg) v n Hv ltac:(lia)). lia. }
  induction data as [| r | r g | r g b | r g b a rest IH] using list_ind4;
    intros Hin st; cbn [noise_loop].
  - constructor.
  - inversion Hin; subst. split_draws_range. cbv [fst].
    repeat apply Forall2_cons; auto.
  - inversion Hin as [| ? ? ? Hin1]; subst. inversion Hin1; subst.
    split_draws_range. cbv [fst]. repeat apply Forall2_cons; auto.
  - inversion Hin as [| ? ? ? Hin1]; subst.
    inversion Hin1 as [| ? ? ? Hin2]; subst. inversion Hin2; subst.
    split_draws_range. cbv [fst]. repeat apply Forall2_cons; auto.
  - inversion Hin as [| ? ? ? Hin1]; subst.
    inversion Hin1 as [| ? ? ? Hin2]; subst.
    inversion Hin2 as [| ? ? ? Hin3]; subst.
    inversion Hin3 as [| ? ? Ha Hrest]; subst.
    split_draws_range.
    destruct (Z.eqb_spec a 255) as [-> | Hne]; split_draws_range;
      match goal with
      | |- context [noise_loop cfg rest ?s] =>
          specialize (IH Hrest s);
          destruct (noise_loop cfg rest s) as [rest' st']
      end;
      cbv [fst] in *; repeat apply Forall2_cons; auto.
    + match goal with
      | H : 0 <= alphaNoiseRange cfg -> _ |- _ =>
          pose proof (alpha_bound (alphaNoiseRange cfg) _ (H Har))
      end. lia.
    + rewrite Z.sub_diag. cbn. lia.
Qed.

(** X7: with non-negative noise ranges, the buffer returned by the wrapped
    getImageData has the length of the original one, and each of its bytes
    differs from the original byte by at most the larger of
    pixelNoiseRange and alphaNoiseRange. *)
Theorem getImageData_noise_bounded (now : Z) (s : Session) (width height : Z)
        (data : list Z) :
  0 <= pixelNoiseRange (canvasConfig s) ->
  0 <= alphaNoiseRange (canvasConfig s) ->
  Forall is_byte data ->
  Forall2 (fun i o => Z.abs (o - i)
                      <= Z.max (pixelNoiseRange (canvasConfig s))
                               (alphaNoiseRange (canvasConfig s)))
          data (spoofGetImageData now s width height data)
  /\ List.length (spoofGetImageData now s width height data) = List.length data.
Proof.
  intros Hpr Har Hin.
  pose proof (noise_loop_bound (canvasConfig s) data Hpr Har Hin
                (createPRNG now (Some (contentSeed s width height data)))) as H.
  split; [exact H |].
  symmetry. exact (Forall2_length H).
Qed.

Lemma red4x4_bytes : Forall is_byte red4x4.
Proof.
  apply (Forall_impl is_byte (P := fun v => v = 255 \/ v = 0));
    [unfold is_byte; lia |].
  unfold red4x4; repeat apply Forall_cons; auto.
Qed.

Lemma getImageData_noise_bounded_witness :
  let s := mkSession 12345 12345 default_config in
  Forall2 (fun i o => Z.abs (o - i) <= Z.max 5 3)
          red4x4 (spoofGetImageData 0 s 4 4 red4x4)
  /\ List.length (spoofGetImageData 0 s 4 4 red4x4) = List.length red4x4.
Proof.
  intros s.
  apply (getImageData_noise_bounded 0 s 4 4 red4x4);
    [cbn; lia | cbn; lia | exact red4x4_bytes].
Defined.

Lemma Forall2_eq_list (A : Type) (l1 l2 : list A) :
  Forall2 eq l1 l2 -> l1 = l2.
Proof. induction 1; [reflexivity | now f_equal]. Qed.

(** X8: with both noise ranges set to 0 the wrapped getImageData returns
    the original bytes unchanged. *)
Theorem getImageData_zero_ranges (now : Z) (s : Session) (width height : Z)
        (data : list Z) :
  pixelNoiseRange (canvasConfig s) = 0 ->
  alphaNoiseRange (canvasConfig s) = 0 ->
  Forall is_byte data ->
  spoofGetImageData now s width height data = data.
Proof.
  intros Hpr Har Hin.
  pose proof (noise_loop_bound (canvasConfig s) data ltac:(lia) ltac:(lia) Hin
                (createPRNG now (Some (contentSeed s width height data)))) as H.
  rewrite Hpr, Har in H. symmetry. apply Forall2_eq_list.
  unfold spoofGetImageData.
  eapply Forall2_impl; [| exact H].
  cbn. intros a b Hab. lia.
Qed.

Lemma getImageData_zero_ranges_witness :
  spoofGetImageData 0 (mkSession 12345 12345 (mkConfig 0 0)) 4 4 red4x4 = red4x4.
Proof.
  apply getImageData_zero_ranges; [reflexivity | reflexivity | exact red4x4_bytes].
Defined.

(** The alpha byte of every complete pixel: 255 may only go down, any
    other value is kept. *)
Lemma noise_loop_alpha (cfg : Config) (data : list Z) :
  forall (st : Z) (k : nat) (a : Z),
    nth_error data (4 * k + 3) = Some a ->
    exists a',
      nth_error (fst (noise_loop cfg data st)) (4 * k + 3) = Some a'
      /\ a' <= a /\ (a <> 255 -> a' = a).
Proof.
  induction data as [| r | r g | r g b | r g b a0 rest IH] using list_ind4;
    intros st k a Hk;
    try (assert (nth_error (A := Z) [] (4 * k + 3) = None) as E
           by (apply nth_error_None; cbn; lia); congruence);
    try (assert (nth_error [r] (4 * k + 3) = None) as E
           by (apply nth_error_None; cbn; lia); congruence);
    try (assert (nth_error [r; g] (4 * k + 3) = None) as E
           by (apply nth_error_None; cbn; lia); congruence);
    try (assert (nth_error [r; g; b] (4 * k + 3) = None) as E
           by (apply nth_error_None; cbn; lia); congruence).
  cbn [noise_loop]. split_draws.
  destruct k as [| k].
  - cbn in Hk. injection Hk as <-.
    destruct (Z.eqb_spec a0 255) as [-> | Hne]; split_draws;
      match goal with
      | |- context [noise_loop cfg rest ?s] =>
          destruct (noise_loop cfg rest s) as [rest' st']
      end;
      cbv [fst]; cbn [nth_error Nat.mul Nat.add]; eexists; split; try reflexivity.
    + unfold Uint8ClampedArray_store, clamp255. lia.
    + lia.
  - replace (4 * S k + 3)%nat with (S (S (S (S (4 * k + 3))))) in * by lia.
    cbn [nth_error] in Hk.
    destruct (a0 =? 255); split_draws;
      match goal with
      | |- context [noise_loop cfg rest ?s] =>
          specialize (IH s k a Hk);
          destruct (noise_loop cfg rest s) as [rest' st']
      end;
      cbv [fst] in *; cbn [nth_error]; exact IH.
Qed.

(** X9: whatever the configuration, the wrapped getImageData never makes
    a pixel more opaque: a complete pixel's alpha byte comes back no
    larger than it was, and unchanged unless it was 255. *)
Theorem getImageData_alpha_never_raised (now : Z) (s : Session)
        (width height : Z) (data : list Z) (k : nat) (a : Z) :
  nth_error data (4 * k + 3) = Some a ->
  exists a',
    nth_error (spoofGetImageData now s width height data) (4 * k + 3) = Some a'
    /\ a' <= a /\ (a <> 255 -> a' = a).
Proof. intros Hk. unfold spoofGetImageData. now apply noise_loop_alpha. Qed.

Lemma getImageData_alpha_never_raised_witness :
  exists a',
    nth_error (spoofGetImageData 0 (mkSession 12345 12345 default_config) 4 4
                                 [10; 20; 30; 128; 10; 20; 30; 255])
              (4 * 1 + 3) = Some a'
    /\ a' <= 255 /\ (255 <> 255 -> a' = 255).
Proof.
  apply (getImageData_alpha_never_raised 0 (mkSession 12345 12345 default_config)
           4 4 [10; 20; 30; 128; 10; 20; 30; 255] 1 255).
  reflexivity.
Defined.

(** X10: the content seed looks at the canvas size and at the bytes at
    offsets 0, 100 and 1000 only: two buffers that agree there (absent
    bytes included) are given the same content generator, however they
    differ elsewhere. *)
Theorem contentSeed_samples_three_bytes (now : Z) (s : Session)
        (width height : Z) (data1 data2 : list Z) :
  nth_error data1 0 = nth_error data2 0 ->
  nth_error data1 100 = nth_error data2 100 ->
  nth_error data1 1000 = nth_error data2 1000 ->
  contentSeed s width height data1 = contentSeed s width height data2
  /\ createPRNG now (Some (contentSeed s width height data1))
     = createPRNG now (Some (contentSeed s width height data2)).
Proof.
  intros H0 H100 H1000.
  assert (contentSeed s width height data1 = contentSeed s width height data2) as E.
  { unfold contentSeed, contentFingerprint. now rewrite H0, H100, H1000. }
  split; [exact E | now rewrite E].
Qed.

Lemma contentSeed_samples_three_bytes_witness :
  let s := mkSession 12345 12345 default_config in
  let blue_tail := firstn 60 red4x4 ++ [0; 0; 255; 255] in
  contentSeed s 4 4 red4x4 = contentSeed s 4 4 blue_tail
  /\ createPRNG 0 (Some (contentSeed s 4 4 red4x4))
     = createPRNG 0 (Some (contentSeed s 4 4 blue_tail)).
Proof.
  intros s blue_tail.
  apply (contentSeed_samples_three_bytes 0 s 4 4 red4x4 blue_tail); reflexivity.
Defined.

(** ** The replacements and their arguments *)

Section WrapperFacts.

Import Fallback.

Variables (World Value Error : Type).
Variable console_error : string -> string -> Error -> World -> World.
Variable new_Error : string -> Error.
Variable undefined : Value.

Lemma declared_parameters_nth (arity : nat) (args : list Value) (i : nat) :
  (i < arity)%nat ->
  nth_error (declared_parameters undefined arity args) i
  = Some (nth i args undefined).
Proof.
  intros Hi. unfold declared_parameters.
  rewrite nth_error_map, nth_error_seq.
  destruct (Nat.ltb_spec i arity); [reflexivity | lia].
Qed.

Lemma declared_parameters_length (arity : nat) (args : list Value) :
  List.length (declared_parameters undefined arity args) = arity.
Proof. unfold declared_parameters. now rewrite length_map, length_seq. Qed.

Lemma declared_parameters_char (arity : nat) (args l : list Value) :
  List.length l = arity ->
  (forall i, (i < arity)%nat -> nth i l undefined = nth i args undefined) ->
  declared_parameters undefined arity args = l.
Proof.
  intros Hlen Hnth.
  apply nth_error_ext. intros i.
  destruct (Nat.ltb_spec i arity) as [Hi | Hi].
  - rewrite declared_parameters_nth by exact Hi.
    rewrite <- (Hnth i Hi). symmetry. apply nth_error_nth'. lia.
  - rewrite (proj2 (nth_error_None _ _)), (proj2 (nth_error_None _ _));
      [reflexivity | lia | rewrite declared_parameters_length; lia].
Qed.

(** X11: a replacement forwards exactly the parameters it declares.
    Arguments beyond them are dropped, both on the spoof path and on the
    fallback to the original, and missing ones are passed as [undefined]. *)
Theorem wrapper_forwards_declared_parameters (mode : SpoofMode)
        (original : js_function World Value Error)
        (spoof : js_function World Value Error -> js_function World Value Error)
        (moduleName : string) (this : Value) (args extra : list Value)
        (missing : nat) (w : World) :
  wrapper console_error new_Error undefined mode original spoof
          (List.length args) moduleName this (args ++ extra) w
  = wrapper console_error new_Error undefined mode original spoof
            (List.length args) moduleName this args w
  /\ wrapper console_error new_Error undefined mode original spoof
             (List.length args + missing) moduleName this args w
     = wrapper console_error new_Error undefined mode original spoof
               (List.length args + missing) moduleName this
               (args ++ repeat undefined missing) w.
Proof.
  unfold wrapper. split.
  - replace (declared_parameters undefined (List.length args) (args ++ extra))
      with (declared_parameters undefined (List.length args) args); [reflexivity |].
    rewrite declared_parameters_exact. symmetry.
    apply declared_parameters_char; [reflexivity |].
    intros i Hi. now rewrite app_nth1.
  - replace (declared_parameters undefined (List.length args + missing) args)
      with (declared_parameters undefined (List.length args + missing)
              (args ++ repeat undefined missing)); [reflexivity |].
    replace (List.length args + missing)%nat
      with (List.length (args ++ repeat undefined missing))
      by (now rewrite length_app, repeat_length).
    rewrite declared_parameters_exact.
    symmetry. apply declared_parameters_char; [reflexivity |].
    intros i Hi.
    destruct (Nat.ltb_spec i (List.length args)) as [Hlt | Hge].
    + now rewrite app_nth1.
    + rewrite app_nth2 by lia. rewrite nth_repeat.
      symmetry. apply nth_overflow. lia.
Qed.

End WrapperFacts.

(** ** More on the patch registry *)

Section RegistryHistory.

Import Registry.

(** The replacements a run of [patch] installs when the closure counter
    stands at [n]. *)
Lemma patch_installs (w : World) :
  isPatched w = false ->
  prototypes (snd (patch w))
  = mkSlots (Some (Wrapper GetImageData (next_closure w)))
            (Some (Wrapper ToDataURL (S (next_closure w))))
            (Some (Wrapper GetContext (S (S (next_closure w)))))
  /\ originalMethods (snd (patch w)) = prototypes w
  /\ next_closure (snd (patch w)) = S (S (S (next_closure w))).
Proof.
  intros H. rewrite patch_eq, H. cbn. now rewrite slots_eta.
Qed.

(** What holds of the registry along a history of toggles. *)
Lemma toggles_invariant (host : slots) (ts : list toggle) :
  forall w0,
    ((isPatched w0 = false -> prototypes w0 = host)
     /\ (isPatched w0 = true ->
         originalMethods w0 = host
         /\ exists n,
             prototypes w0 = mkSlots (Some (Wrapper GetImageData n))
                                     (Some (Wrapper ToDataURL (S n)))
                                     (Some (Wrapper GetContext (S (S n))))
             /\ next_closure w0 = S (S (S n)))) ->
    let w := toggles ts w0 in
    (isPatched w = false -> prototypes w = host)
    /\ (isPatched w = true ->
        originalMethods w = host
        /\ exists n,
            prototypes w = mkSlots (Some (Wrapper GetImageData n))
                                   (Some (Wrapper ToDataURL (S n)))
                                   (Some (Wrapper GetContext (S (S n))))
            /\ next_closure w = S (S (S n))).
Proof.
  induction ts as [| t ts IH]; intros w0 H0; [exact H0 |].
  cbn [toggles fold_left]. apply (IH (apply_toggle w0 t)).
  destruct H0 as [Hu Hp].
  destruct t; cbn [apply_toggle]; rewrite ?patch_eq, ?unpatch_eq;
    destruct (isPatched w0) eqn:E; cbn [negb snd isPatched prototypes
                                        originalMethods next_closure];
    rewrite ?E.
  - split; [congruence | intros _; exact (Hp eq_refl)].
  - split; [discriminate |]. intros _. rewrite slots_eta.
    split; [exact (Hu eq_refl) | eauto].
  - split; [| discriminate]. intros _. rewrite slots_eta.
    exact (proj1 (Hp eq_refl)).
  - split; [exact Hu | congruence].
Qed.

Lemma loaded_invariant (host : slots) (ts : list toggle) :
  let w := toggles ts (loaded host) in
  (isPatched w = false -> prototypes w = host)
  /\ (isPatched w = true ->
      originalMethods w = host
      /\ exists n,
          prototypes w = mkSlots (Some (Wrapper GetImageData n))
                                 (Some (Wrapper ToDataURL (S n)))
                                 (Some (Wrapper GetContext (S (S n))))
          /\ next_closure w = S (S (S n))).
Proof.
  apply toggles_invariant. split; [reflexivity | discriminate].
Qed.

(** On a host where no access throws, [patch()] and [unpatch()] are the
    page's. *)
Lemma patch_on_no_faults (throws : faults) (w : World) :
  (forall a, throws a = false) -> patch_on throws w = (patch w, []).
Proof.
  intros H. unfold patch, patch_on, store_original, replace_method, no_faults.
  destruct (isPatched w); [reflexivity |].
  repeat (rewrite H; cbn [and_then]). reflexivity.
Qed.

Lemma unpatch_on_no_faults (throws : faults) (w : World) :
  (forall a, throws a = false) -> unpatch_on throws w = (unpatch w, []).
Proof.
  intros H. unfold unpatch, unpatch_on, restore_method, no_faults.
  destruct (isPatched w); [| reflexivity].
  cbn [negb]. repeat (rewrite H; cbn [and_then]). reflexivity.
Qed.

Lemma toggles_on_no_faults (throws : faults) (ts : list toggle) :
  (forall a, throws a = false) ->
  forall w, toggles_on throws ts w = toggles ts w.
Proof.
  intros H. induction ts as [| t ts IH]; intros w; [reflexivity |].
  cbn [toggles_on toggles fold_left].
  replace (apply_toggle_on throws w t) with (apply_toggle w t); [apply IH |].
  destruct t; cbn [apply_toggle apply_toggle_on];
    now rewrite ?patch_on_no_faults, ?unpatch_on_no_faults by exact H.
Qed.

(** X12: on a host where none of the reads and writes of the two [try]
    blocks throws, along every history of patch() and unpatch() calls
    from the freshly loaded module, an unpatched registry shows the host's
    own references in the three prototype slots, and a patched one holds
    exactly those references as its originals, with three of its own
    replacements in the slots: there the registry never captures one of
    its replacements as an original, and both calls return true without
    writing to the console. *)
Theorem registry_history (throws : faults) (host : slots) (ts : list toggle) :
  (forall a, throws a = false) ->
  let w := toggles_on throws ts (loaded host) in
  (isPatched w = false -> prototypes w = host)
  /\ (isPatched w = true ->
      originalMethods w = host
      /\ exists n,
          prototypes w = mkSlots (Some (Wrapper GetImageData n))
                                 (Some (Wrapper ToDataURL (S n)))
                                 (Some (Wrapper GetContext (S (S n))))
          /\ next_closure w = S (S (S n)))
  /\ (exists w', patch_on throws w = (true, w', []))
  /\ (exists w', unpatch_on throws w = (true, w', [])).
Proof.
  intros H w. unfold w. rewrite (toggles_on_no_faults throws ts H).
  destruct (loaded_invariant host ts) as [Hu Hp].
  split; [exact Hu |]. split; [exact Hp |].
  rewrite (patch_on_no_faults throws _ H), (unpatch_on_no_faults throws _ H).
  rewrite patch_eq, unpatch_eq.
  destruct (isPatched (toggles ts (loaded host))); split; eexists; reflexivity.
Qed.

(** X13: every effective patch() allocates new function objects: after
    patch(), unpatch(), patch() from an unpatched registry, none of the
    three slots holds the replacement the first patch() put there. *)
Theorem repatch_installs_new_closures (w : World) :
  isPatched w = false ->
  let first := prototypes (snd (patch w)) in
  let second := prototypes (snd (patch (snd (unpatch (snd (patch w)))))) in
  getImageData second <> getImageData first
  /\ toDataURL second <> toDataURL first
  /\ getContext second <> getContext first.
Proof.
  intros H. rewrite (patch_eq w), H. cbn.
  repeat split; intros [= E]; lia.
Qed.

Ltac case_faults throws :=
  repeat match goal with
         | |- context [if throws ?a then _ else _] =>
             let E := fresh "E" in
             destruct (throws a) eqn:E; cbn [and_then]
         end.

(** X22: from an unpatched registry, patch() returns false exactly when
    one of the three reads or three writes of its [try] block throws; it
    then leaves [isPatched] false and writes one line to the console.
    When the write of toDataURL throws after the write of getImageData
    went through, the replacement of getImageData stays in its slot, and
    the next patch() on that host captures it as the original
    getImageData. *)
Theorem patch_failure (throws : faults) (w : World) :
  isPatched w = false ->
  (fst (fst (patch_on throws w)) = false <-> exists a, throws a = true)
  /\ (fst (fst (patch_on throws w)) = false ->
      isPatched (snd (fst (patch_on throws w))) = false
      /\ exists a, throws a = true
                   /\ snd (patch_on throws w) = [("Failed to patch canvas APIs"%string, a)])
  /\ (throws (Read GetImageData) = false -> throws (Read ToDataURL) = false ->
      throws (Read GetContext) = false -> throws (Write GetImageData) = false ->
      throws (Write ToDataURL) = true ->
      let w1 := snd (fst (patch_on throws w)) in
      getImageData (prototypes w1) = Some (Wrapper GetImageData (next_closure w))
      /\ toDataURL (prototypes w1) = toDataURL (prototypes w)
      /\ getImageData (originalMethods (snd (fst (patch_on throws w1))))
         = Some (Wrapper GetImageData (next_closure w))).
Proof.
  intros H. split; [| split].
  - unfold patch_on, store_original, replace_method. rewrite H.
    case_faults throws; cbn [fst]; split; intros H';
      try discriminate; eauto;
      destruct H' as [[[] | []] H']; congruence.
  - unfold patch_on, store_original, replace_method. rewrite H.
    case_faults throws; cbn [fst snd]; intros H'; try discriminate;
      (split; [reflexivity | eauto]).
  - intros E1 E2 E3 E4 E5.
    assert (Hw : patch_on throws w
                 = (false,
                    mkWorld (mkSlots (Some (Wrapper GetImageData (next_closure w)))
                                     (toDataURL (prototypes w))
                                     (getContext (prototypes w)))
                            (mkSlots (getImageData (prototypes w))
                                     (toDataURL (prototypes w))
                                     (getContext (prototypes w)))
                            false (S (S (next_closure w))),
                    [("Failed to patch canvas APIs"%string, Write ToDataURL)])).
    { unfold patch_on, store_original, replace_method.
      rewrite H, E1, E2, E3, E4, E5. reflexivity. }
    rewrite Hw. cbn [fst snd]. cbv zeta.
    split; [reflexivity | split; [reflexivity |]].
    unfold patch_on, store_original, replace_method.
    cbn [isPatched]. rewrite E1, E2, E3, E4, E5. reflexivity.
Qed.

(** X23: from a patched registry, unpatch() returns false exactly when
    one of its three writes throws; it then leaves [isPatched] true, so
    that a later unpatch() tries again, and on a host where the writes go
    through that later call puts the captured references back. *)
Theorem unpatch_failure (throws : faults) (w : World) :
  isPatched w = true ->
  (fst (fst (unpatch_on throws w)) = false
   <-> exists m, throws (Write m) = true)
  /\ (fst (fst (unpatch_on throws w)) = false ->
      isPatched (snd (fst (unpatch_on throws w))) = true
      /\ originalMethods (snd (fst (unpatch_on throws w))) = originalMethods w
      /\ prototypes (snd (unpatch (snd (fst (unpatch_on throws w)))))
         = originalMethods w).
Proof.
  intros H. split.
  - unfold unpatch_on, restore_method. rewrite H. cbn [negb].
    case_faults throws; cbn [fst]; split; intros H';
      try discriminate; eauto;
      destruct H' as [[] H']; congruence.
  - unfold unpatch_on, restore_method. rewrite H. cbn [negb].
    case_faults throws; cbn [fst snd]; intros H'; try discriminate;
      rewrite unpatch_eq; cbn; rewrite ?H; cbn; rewrite ?slots_eta; auto.
Qed.

End RegistryHistory.

Lemma patch_failure_witness :
  let host := Registry.mkSlots (Some (Registry.Host 0)) (Some (Registry.Host 1))
                               (Some (Registry.Host 2)) in
  let w1 := snd (fst (Registry.patch_on demo_faults (Registry.loaded host))) in
  fst (fst (Registry.patch_on demo_faults (Registry.loaded host))) = false
  /\ Registry.getImageData (Registry.originalMethods
                              (snd (fst (Registry.patch_on demo_faults w1))))
     = Some (Registry.Wrapper Registry.GetImageData 0).
Proof.
  intros host w1.
  destruct (patch_failure demo_faults (Registry.loaded host) eq_refl)
    as (Hr & _ & Hc).
  split.
  - apply Hr. exists (Registry.Write Registry.ToDataURL). reflexivity.
  - apply Hc; reflexivity.
Defined.

Lemma unpatch_failure_witness :
  let host := Registry.mkSlots (Some (Registry.Host 0)) (Some (Registry.Host 1))
                               (Some (Registry.Host 2)) in
  let w := snd (Registry.patch (Registry.loaded host)) in
  fst (fst (Registry.unpatch_on demo_faults w)) = false
  /\ Registry.isPatched (snd (fst (Registry.unpatch_on demo_faults w))) = true.
Proof.
  intros host w.
  destruct (unpatch_failure demo_faults w eq_refl) as (Hr & Hs).
  assert (Hf : fst (fst (Registry.unpatch_on demo_faults w)) = false).
  { apply Hr. exists Registry.ToDataURL. reflexivity. }
  split; [exact Hf | exact (proj1 (Hs Hf))].
Defined.

Lemma repatch_installs_new_closures_witness :
  let w := Registry.loaded (Registry.mkSlots (Some (Registry.Host 0))
                                             (Some (Registry.Host 1))
                                             (Some (Registry.Host 2))) in
  let first := Registry.prototypes (snd (Registry.patch w)) in
  let second :=
    Registry.prototypes
      (snd (Registry.patch (snd (Registry.unpatch (snd (Registry.patch w)))))) in
  Registry.getImageData second <> Registry.getImageData first
  /\ Registry.toDataURL second <> Registry.toDataURL first
  /\ Registry.getContext second <> Registry.getContext first.
Proof.
  intros w. apply (repatch_installs_new_closures w). reflexivity.
Defined.

(** ** The WebGL read-back and export noise *)

Lemma rem7_offset_range (h : Z) : -9 <= rem h 7 - 3 <= 3.
Proof.
  unfold rem. pose proof (Z.rem_bound_abs h 7 ltac:(lia)). lia.
Qed.

Lemma webgl_put_bound (v n : Z) :
  is_byte v -> -9 <= n <= 3 ->
  -9 <= WebGL.Uint8Array_store (clamp255 (v + n)) - v <= 3
  /\ -9 <= Uint8ClampedArray_store (clamp255 (v + n)) - v <= 3.
Proof.
  intros Hv Hn.
  rewrite (proj1 (store_clamped (v + n))), (proj2 (store_clamped (v + n))).
  unfold is_byte, clamp255 in *. lia.
Qed.

Lemma webgl_offset_refl (v : Z) : webgl_offset v v.
Proof. unfold webgl_offset. lia. Qed.

Lemma readPixels_loop4_offsets (noise : Z -> Z) (pixels : list Z) :
  (forall k, -9 <= noise k <= 3) ->
  Forall is_byte pixels ->
  forall i, Forall2 webgl_offset pixels (WebGL.readPixels_loop4 noise i pixels).
Proof.
  intros Hnoise.
  induction pixels as [| r | r g | r g b | r g b a rest IH] using list_ind4;
    intros Hin i; cbn [WebGL.readPixels_loop4].
  - constructor.
  - inversion Hin; subst.
    repeat apply Forall2_cons; try apply webgl_put_bound; auto.
  - inversion Hin as [| ? ? ? Hin1]; subst. inversion Hin1; subst.
    repeat apply Forall2_cons; try apply webgl_put_bound; auto.
  - inversion Hin as [| ? ? ? Hin1]; subst.
    inversion Hin1 as [| ? ? ? Hin2]; subst. inversion Hin2; subst.
    repeat apply Forall2_cons; try apply webgl_put_bound; auto.
  - inversion Hin as [| ? ? ? Hin1]; subst.
    inversion Hin1 as [| ? ? ? Hin2]; subst.
    inversion Hin2 as [| ? ? ? Hin3]; subst.
    inversion Hin3 as [| ? ? Ha Hrest]; subst.
    repeat apply Forall2_cons;
      try apply webgl_put_bound; try apply webgl_offset_refl; auto.
Qed.

Lemma readPixels_loop3_offsets (noise : Z -> Z) (pixels : list Z) :
  (forall k, -9 <= noise k <= 3) ->
  Forall is_byte pixels ->
  forall i, Forall2 webgl_offset pixels (WebGL.readPixels_loop3 noise i pixels).
Proof.
  intros Hnoise.
  induction pixels as [| r | r g | r g b rest IH] using list_ind3;
    intros Hin i; cbn [WebGL.readPixels_loop3].
  - constructor.
  - inversion Hin; subst.
    repeat apply Forall2_cons; try apply webgl_put_bound; auto.
  - inversion Hin as [| ? ? ? Hin1]; subst. inversion Hin1; subst.
    repeat apply Forall2_cons; try apply webgl_put_bound; auto.
  - inversion Hin as [| ? ? ? Hin1]; subst.
    inversion Hin1 as [| ? ? ? Hin2]; subst.
    inversion Hin2 as [| ? ? ? Hin3]; subst.
    repeat apply Forall2_cons; try apply webgl_put_bound; auto.
Qed.

(** X14: the wrapped readPixels keeps the length of the buffer and moves
    each byte by an offset between -9 and 3; unless the format is gl.RGB
    it leaves the fourth byte of every complete group of four, the alpha
    of an RGBA read, as the original call wrote it. *)
Theorem readPixels_offsets (gl : WebGL.GL) (x y width height format : Z)
        (pixels : list Z) :
  Forall is_byte pixels ->
  Forall2 (fun i o => -9 <= o - i <= 3) pixels
          (WebGL.readPixels gl x y width height format pixels)
  /\ List.length (WebGL.readPixels gl x y width height format pixels)
     = List.length pixels
  /\ (format <> WebGL.RGB gl ->
      forall k : nat,
        (4 * k + 3 < List.length pixels)%nat ->
        nth_error (WebGL.readPixels gl x y width height format pixels) (4 * k + 3)
        = nth_error pixels (4 * k + 3)).
Proof.
  intros Hin.
  assert (Forall2 webgl_offset pixels
            (WebGL.readPixels gl x y width height format pixels)) as H.
  { unfold WebGL.readPixels.
    destruct (format =? WebGL.RGB gl); cbn [Z.eqb Pos.eqb].
    - apply readPixels_loop3_offsets; [intros k; apply rem7_offset_range | exact Hin].
    - apply readPixels_loop4_offsets; [intros k; apply rem7_offset_range | exact Hin]. }
  split; [exact H |]. split; [symmetry; exact (Forall2_length H) |].
  intros Hfmt k Hk. unfold WebGL.readPixels.
  destruct (Z.eqb_spec format (WebGL.RGB gl)); [contradiction |].
  cbn [Z.eqb Pos.eqb]. now apply readPixels_loop4_alpha.
Qed.

Lemma readPixels_offsets_witness :
  let out :=
    WebGL.readPixels (WebGL.webgl_context "c") 0 0 2 1 0x1908
                     [0; 100; 255; 255; 10; 20; 30; 128] in
  Forall2 (fun i o => -9 <= o - i <= 3) [0; 100; 255; 255; 10; 20; 30; 128] out
  /\ List.length out = 8%nat
  /\ nth_error out 7 = Some 128.
Proof.
  intros out.
  destruct (readPixels_offsets (WebGL.webgl_context "c") 0 0 2 1 0x1908
              [0; 100; 255; 255; 10; 20; 30; 128]) as (H1 & H2 & H3).
  { repeat apply Forall_cons; unfold is_byte; try lia; constructor. }
  split; [exact H1 |]. split; [exact H2 |].
  apply (H3 ltac:(vm_compute; discriminate) 1%nat). cbn. lia.
Defined.

Lemma export_loop_offsets (width : Z) (id : string) (pixels : list Z) :
  Forall is_byte pixels ->
  forall p, Forall2 webgl_offset pixels (WebGL.export_loop width id p pixels).
Proof.
  induction pixels as [| r | r g | r g b | r g b a rest IH] using list_ind4;
    intros Hin p; cbn [WebGL.export_loop].
  - constructor.
  - inversion Hin; subst.
    repeat apply Forall2_cons; try apply webgl_put_bound;
      auto using rem7_offset_range.
  - inversion Hin as [| ? ? ? Hin1]; subst. inversion Hin1; subst.
    repeat apply Forall2_cons; try apply webgl_put_bound;
      auto using rem7_offset_range.
  - inversion Hin as [| ? ? ? Hin1]; subst.
    inversion Hin1 as [| ? ? ? Hin2]; subst. inversion Hin2; subst.
    repeat apply Forall2_cons; try apply webgl_put_bound;
      auto using rem7_offset_range.
  - inversion Hin as [| ? ? ? Hin1]; subst.
    inversion Hin1 as [| ? ? ? Hin2]; subst.
    inversion Hin2 as [| ? ? ? Hin3]; subst.
    inversion Hin3 as [| ? ? Ha Hrest]; subst.
    repeat apply Forall2_cons;
      try apply webgl_put_bound; try apply webgl_offset_refl;
      auto using rem7_offset_range.
Qed.

Lemma export_loop_alpha (width : Z) (id : string) (pixels : list Z) :
  forall (p : Z) (k : nat),
    nth_error (WebGL.export_loop width id p pixels) (4 * k + 3)
    = nth_error pixels (4 * k + 3).
Proof.
  induction pixels as [| r | r g | r g b | r g b a rest IH] using list_ind4;
    intros p k;
    try (cbn [WebGL.export_loop];
         transitivity (@None Z);
         [apply nth_error_None; cbn; lia
         | symmetry; apply nth_error_None; cbn; lia]).
  destruct k as [| k].
  - reflexivity.
  - replace (4 * S k + 3)%nat with (S (S (S (S (4 * k + 3))))) by lia.
    cbn [WebGL.export_loop nth_error]. apply IH.
Qed.

Lemma export_loop_bytes (width : Z) (id : string) (pixels : list Z) :
  Forall is_byte pixels ->
  forall p, Forall is_byte (WebGL.export_loop width id p pixels).
Proof.
  induction pixels as [| r | r g | r g b | r g b a rest IH] using list_ind4;
    intros Hin p; cbn [WebGL.export_loop];
    try (repeat apply Forall_cons; now auto with bytes).
  inversion Hin as [| ? ? _ Hin1]; subst.
  inversion Hin1 as [| ? ? _ Hin2]; subst.
  inversion Hin2 as [| ? ? _ Hin3]; subst.
  inversion Hin3 as [| ? ? Ha Hrest]; subst.
  repeat apply Forall_cons; auto with bytes.
Qed.

(** X15: the pixel loop of the WebGL toDataURL and toBlob replacements
    keeps the length of the image data, returns bytes, moves each colour
    byte by an offset between -9 and 3, and leaves every alpha byte
    untouched. *)
Theorem export_loop_offsets_and_alpha (width : Z) (id : string)
        (pixels : list Z) :
  Forall is_byte pixels ->
  Forall2 (fun i o => -9 <= o - i <= 3) pixels
          (WebGL.export_loop width id 0 pixels)
  /\ Forall is_byte (WebGL.export_loop width id 0 pixels)
  /\ List.length (WebGL.export_loop width id 0 pixels) = List.length pixels
  /\ (forall k : nat,
        nth_error (WebGL.export_loop width id 0 pixels) (4 * k + 3)
        = nth_error pixels (4 * k + 3)).
Proof.
  intros Hin.
  pose proof (export_loop_offsets width id pixels Hin 0) as H.
  split; [exact H |].
  split; [now apply export_loop_bytes |].
  split; [symmetry; exact (Forall2_length H) | apply export_loop_alpha].
Qed.

Lemma export_loop_offsets_and_alpha_witness :
  let pixels := [0; 100; 255; 255; 10; 20; 30; 128] in
  Forall2 (fun i o => -9 <= o - i <= 3) pixels
          (WebGL.export_loop 2 "c" 0 pixels)
  /\ Forall is_byte (WebGL.export_loop 2 "c" 0 pixels)
  /\ List.length (WebGL.export_loop 2 "c" 0 pixels) = List.length pixels
  /\ (forall k : nat,
        nth_error (WebGL.export_loop 2 "c" 0 pixels) (4 * k + 3)
        = nth_error pixels (4 * k + 3)).
Proof.
  intros pixels. apply export_loop_offsets_and_alpha.
  repeat apply Forall_cons; unfold is_byte; try lia; constructor.
Defined.

(** ** The page and the harness *)

(** X16: on a page prepared by injectCanvasSpoofing, bootstrap.js runs
    [init()] without arguments and never reads the injected
    configuration: the session seed reported by getStatus() is the one
    mixed from the page's clock and random scalar, whatever seed the
    harness chose and reported, and the three methods are patched over
    the host's own. *)
Theorem page_seed_ignores_harness_seed (now_harness : Z)
        (config_seed : option Z) (env : Env) (host : Registry.slots) :
  let seed := Harness.injectCanvasSpoofing_seed now_harness config_seed in
  let win := Page.load seed env host in
  Page.obscura_config_seed win = Some seed
  /\ Page.status_sessionSeed win
     = Some (generateSessionSeed (now_seed env) (random_bytes env))
  /\ Registry.isPatched (Page.registry win) = true
  /\ Registry.originalMethods (Page.registry win) = host.
Proof.
  intros seed win. unfold win, Page.load, Page.bootstrap, Page.set_config,
    Page.fresh, Page.status_sessionSeed.
  cbn. destruct host. repeat split.
Qed.

(** X17: the guard of bootstrap.js makes a second run of the script in
    the same window a no-op: the session seed, the generator and the
    registry stay those of the first run. *)
Theorem bootstrap_runs_once (env1 env2 : Env) (win : Page.Window) :
  Page.bootstrap env2 (Page.bootstrap env1 win) = Page.bootstrap env1 win.
Proof.
  unfold Page.bootstrap at 2 3.
  destruct (Page.obscura_initialized win) eqn:E.
  - unfold Page.bootstrap. now rewrite E.
  - reflexivity.
Qed.

(** ** Contexts *)

Section ContextFacts.

Import Registry Context2D.

(** X18: the replacement of getContext touches 2D contexts only and each
    of them once.  For another context type, or when the host returns
    null, the caller gets the host's answer as it is; the first '2d' call
    marks the context and gives it its own getImageData replacement; every
    later call, in whatever state the registry is, returns the context as
    that first call left it. *)
Theorem getContext_wraps_once (w w' : World) (contextType : string) (ctx : Ctx) :
  (contextType <> "2d"%string ->
   getContext w contextType (Some ctx) = Some ctx)
  /\ getContext w "2d" None = None
  /\ (obscura_processed ctx = false ->
      getContext w "2d" (Some ctx)
      = Some (mkCtx true (Some (InstanceWrapper (lookup_getImageData w ctx)))))
  /\ getContext w' "2d" (getContext w "2d" (Some ctx)) = getContext w "2d" (Some ctx).
Proof.
  unfold getContext, spoofGetContext. cbn [String.eqb Ascii.eqb Bool.eqb negb].
  split; [| split; [| split]].
  - intros Hne. destruct (String.eqb_spec contextType "2d"); [contradiction |].
    reflexivity.
  - reflexivity.
  - intros ->. reflexivity.
  - destruct (obscura_processed ctx) eqn:E; cbn; [now rewrite E | reflexivity].
Qed.

End ContextFacts.

Lemma getContext_wraps_once_witness :
  let w := snd (Registry.patch (Registry.loaded
                  (Registry.mkSlots (Some (Registry.Host 0)) (Some (Registry.Host 1))
                                    (Some (Registry.Host 2))))) in
  Context2D.getContext w "webgl" (Some Context2D.host_ctx) = Some Context2D.host_ctx
  /\ Context2D.getContext w "2d" (Some Context2D.host_ctx)
     = Some (Context2D.mkCtx true
               (Some (Context2D.InstanceWrapper
                        (Context2D.Ref (Some (Registry.Wrapper Registry.GetImageData 0)))))).
Proof.
  intros w.
  destruct (getContext_wraps_once w w "webgl" Context2D.host_ctx)
    as (H1 & _ & _ & _).
  destruct (getContext_wraps_once w w "2d" Context2D.host_ctx)
    as (_ & _ & H3 & _).
  split; [apply H1; discriminate | apply H3; reflexivity].
Defined.

Lemma Forall2_abs_compose (M1 M2 : Z) (l1 l2 l3 : list Z) :
  Forall2 (fun i o => Z.abs (o - i) <= M1) l1 l2 ->
  Forall2 (fun i o => Z.abs (o - i) <= M2) l2 l3 ->
  Forall2 (fun i o => Z.abs (o - i) <= M1 + M2) l1 l3.
Proof.
  intros H. revert l3.
  induction H as [| a b l1 l2 Hab _ IH]; intros l3 H23;
    inversion H23; subst; constructor; [lia | now apply IH].
Qed.

Section DoublePass.

Import Registry Context2D.

(** X19: in a patched registry, whatever the history of toggles, a 2D
    context handed out by getContext keeps the prototype's replacement as
    the original of its own getImageData replacement.  A read-back
    through the context therefore runs the noise transform twice, the
    second pass over the output of the first, while a call that reaches
    the prototype's replacement directly runs it once; with non-negative
    ranges each byte ends up within twice the larger range of the host's
    byte. *)
Theorem context_readback_runs_noise_twice (host : slots) (ts : list toggle)
        (id : nat) (s : Session) (width height : Z) (native : list Z)
        (now1 now2 : Z) (nows : list Z) (extra : nat) :
  let w := toggles ts (loaded host) in
  let once := spoofGetImageData now1 s width height native in
  let twice := spoofGetImageData now2 s width height once in
  isPatched w = true ->
  getImageData host = Some (Host id) ->
  exists ctx,
    getContext w "2d" (Some host_ctx) = Some ctx
    /\ call_getImageData (3 + extra) w s width height native
                         (lookup_getImageData w ctx) (now1 :: now2 :: nows)
       = Some (twice, nows)
    /\ call_getImageData (2 + extra) w s width height native
                         (lookup_getImageData w host_ctx) (now1 :: now2 :: nows)
       = Some (once, now2 :: nows)
    /\ (0 <= pixelNoiseRange (canvasConfig s) ->
        0 <= alphaNoiseRange (canvasConfig s) ->
        Forall is_byte native ->
        Forall2 (fun i o => Z.abs (o - i)
                            <= 2 * Z.max (pixelNoiseRange (canvasConfig s))
                                         (alphaNoiseRange (canvasConfig s)))
                native twice).
Proof.
  intros w once twice Hp Hhost.
  destruct (loaded_invariant host ts) as [_ Hinv].
  destruct (Hinv Hp) as (Horig & n & Hproto & _). fold w in Horig, Hproto.
  eexists. split; [reflexivity |].
  unfold lookup_getImageData. cbn [own_getImageData host_ctx].
  rewrite Hproto. cbn [getImageData].
  split; [| split].
  - cbn [call_getImageData Nat.add]. rewrite Horig, Hhost. reflexivity.
  - cbn [call_getImageData Nat.add]. rewrite Horig, Hhost. reflexivity.
  - intros Hpr Har Hin.
    pose proof (noise_loop_bound (canvasConfig s) native Hpr Har Hin
                  (createPRNG now1 (Some (contentSeed s width height native))))
      as H1.
    assert (Forall is_byte once) as Hb
      by (unfold once, spoofGetImageData; now apply noise_loop_bytes).
    pose proof (noise_loop_bound (canvasConfig s) once Hpr Har Hb
                  (createPRNG now2 (Some (contentSeed s width height once))))
      as H2.
    pose proof (Forall2_abs_compose _ _ _ _ _ H1 H2) as H.
    eapply Forall2_impl; [| exact H]. intros a b Hab. cbv beta in *. lia.
Qed.

End DoublePass.

Lemma context_readback_runs_noise_twice_witness :
  let host := Registry.mkSlots (Some (Registry.Host 0)) (Some (Registry.Host 1))
                               (Some (Registry.Host 2)) in
  let w := Registry.toggles [Registry.Patch] (Registry.loaded host) in
  let s := mkSession 12345 12345 default_config in
  let once := spoofGetImageData 1700000000000 s 4 4 red4x4 in
  let twice := spoofGetImageData 1700000000001 s 4 4 once in
  exists ctx,
    Context2D.getContext w "2d" (Some Context2D.host_ctx) = Some ctx
    /\ Context2D.call_getImageData 3 w s 4 4 red4x4
         (Context2D.lookup_getImageData w ctx) [1700000000000; 1700000000001]
       = Some (twice, [])
    /\ Forall2 (fun i o => Z.abs (o - i) <= 2 * Z.max 5 3) red4x4 twice.
Proof.
  intros host w s once twice.
  destruct (context_readback_runs_noise_twice host [Registry.Patch] 0 s 4 4
              red4x4 1700000000000 1700000000001 [] 0 eq_refl eq_refl)
    as (ctx & H1 & H2 & _ & H4).
  exists ctx. split; [exact H1 |]. split; [exact H2 |].
  apply H4; [cbn; lia | cbn; lia | exact red4x4_bytes].
Defined.

(** ** The life cycle of the WebGL module *)

Section WebGLModuleFacts.

Import WebGLModule.

(** X20: from a module that is not initialized, initialize() with an
    index inside the catalogue installs a new context hook and keeps the
    reference it replaced; a second initialize() changes nothing and
    hands back the first configuration and generator; disable() then
    returns true and puts the replaced reference back, but keeps the
    active profile, so that getStatus() still reports it while reporting
    initialized and enabled as false; a further disable() returns false
    and changes nothing.  With an index outside the catalogue
    initialize() reports an error and installs no hook. *)
Theorem webgl_module_lifecycle (cfg_enabled : bool) (state : Z) (index : nat)
        (m : Module) (cfg' : bool) (state' : Z) (index' : nat) :
  initialized m = false ->
  let m1 := snd (initialize cfg_enabled state index m) in
  let m2 := snd (disable m1) in
  ((index < List.length WebGL.profiles)%nat ->
   fst (initialize cfg_enabled state index m)
   = Ready (Some cfg_enabled) (Some state)
   /\ proto_getContext m1 = ContextHook (next_hook m)
   /\ originalGetContext m1 = Some (proto_getContext m)
   /\ initialize cfg' state' index' m1
      = (Ready (Some cfg_enabled) (Some state), m1)
   /\ fst (disable m1) = true
   /\ proto_getContext m2 = proto_getContext m
   /\ activeProfile m2 = nth_error WebGL.profiles index
   /\ (exists summary, getStatus m2 = (false, false, Some summary))
   /\ disable m2 = (false, m2))
  /\ ((List.length WebGL.profiles <= index)%nat ->
      fst (initialize cfg_enabled state index m) = InitError
      /\ initialized m1 = false
      /\ proto_getContext m1 = proto_getContext m
      /\ disable m1 = (false, m1)).
Proof.
  intros Hm m1 m2. unfold m2, m1, initialize. rewrite Hm. split.
  - intros Hi.
    destruct (nth_error WebGL.profiles index) as [profile |] eqn:E.
    + cbn. repeat split. eexists. reflexivity.
    + apply nth_error_None in E. lia.
  - intros Hi.
    destruct (nth_error WebGL.profiles index) as [profile |] eqn:E.
    + assert (nth_error WebGL.profiles index <> None) as Hne by congruence.
      apply nth_error_Some in Hne. lia.
    + cbn. repeat split.
Qed.

End WebGLModuleFacts.

Lemma webgl_module_lifecycle_witness :
  let m := WebGLModule.unloaded (WebGLModule.HostGetContext 0) in
  let m1 := snd (WebGLModule.initialize true 12345 1 m) in
  let m2 := snd (WebGLModule.disable m1) in
  WebGLModule.proto_getContext m1 = WebGLModule.ContextHook 0
  /\ WebGLModule.proto_getContext m2 = WebGLModule.HostGetContext 0
  /\ WebGLModule.activeProfile m2 = Some WebGL.amd_radeon_rx_6800
  /\ fst (WebGLModule.initialize true 12345 2 m) = WebGLModule.InitError.
Proof.
  intros m m1 m2.
  destruct (webgl_module_lifecycle true 12345 1 m false 0 0 eq_refl) as [H _].
  destruct (H ltac:(cbn; lia)) as (_ & H2 & _ & _ & _ & H6 & H7 & _).
  destruct (webgl_module_lifecycle true 12345 2 m false 0 0 eq_refl) as [_ H'].
  destruct (H' ltac:(cbn; lia)) as (H1' & _).
  split; [exact H2 |]. split; [exact H6 |]. split; [exact H7 | exact H1'].
Defined.

Lemma registry_history_witness :
  let host := Registry.mkSlots (Some (Registry.Host 0)) (Some (Registry.Host 1))
                               (Some (Registry.Host 2)) in
  let w := Registry.toggles_on Registry.no_faults
             [Registry.Patch; Registry.Patch; Registry.Unpatch; Registry.Patch]
             (Registry.loaded host) in
  Registry.originalMethods w = host
  /\ Registry.getImageData (Registry.prototypes w)
     = Some (Registry.Wrapper Registry.GetImageData 3).
Proof.
  intros host w.
  destruct (registry_history Registry.no_faults host
              [Registry.Patch; Registry.Patch; Registry.Unpatch; Registry.Patch]
              (fun _ => eq_refl))
    as (_ & Hp & _).
  destruct (Hp eq_refl) as (Ho & n & Hn & Hc).
  split; [exact Ho |].
  fold w in Hn, Hc. rewrite Hn. cbn in Hc. injection Hc as <-. reflexivity.
Defined.
